(** * billymaster-api: the request handlers of [server.js] over a model of
      the hosted relational store

    The file has two parts.  Part I embeds the program: JavaScript
    strings and arrays, the store client the handlers call, and every
    handler the properties below speak about, each written after the
    source text of [server.js].  Part II states and proves the
    properties. *)

From Stdlib Require Import ZArith List Bool Lia Ascii String.
From Stdlib Require Import Sorting.Permutation Sorting.Sorted.
Import ListNotations.

Local Open Scope string_scope.
Local Open Scope Z_scope.

(* ================================================================= *)
(** * Part I: the program *)
(* ================================================================= *)

(** ** JavaScript strings

    A string is a sequence of code units; the code units of this model
    are the 8-bit ones of [ascii].  [<=] and [>=] on two strings compare
    them code unit by code unit, which is [String.leb]. *)

Module Js.

Definition str_le (a b : string) : bool := String.leb a b.
Definition str_ge (a b : string) : bool := String.leb b a.

(** [WhiteSpace] and [LineTerminator] code units below 256: TAB, LF,
    VT, FF, CR, SP and NBSP. *)
Definition isWhiteSpace (c : ascii) : bool :=
  let n := N_of_ascii c in
  (N.leb 9 n && N.leb n 13) || N.eqb n 32 || N.eqb n 160.

Definition isEmpty (s : string) : bool :=
  match s with EmptyString => true | String _ _ => false end.

Fixpoint trimStart (s : string) : string :=
  match s with
  | EmptyString => EmptyString
  | String c s' => if isWhiteSpace c then trimStart s' else s
  end.

Fixpoint trimEnd (s : string) : string :=
  match s with
  | EmptyString => EmptyString
  | String c s' =>
      let t := trimEnd s' in
      if isWhiteSpace c && isEmpty t then EmptyString else String c t
  end.

(** [s.trim()] *)
Definition trim (s : string) : string := trimEnd (trimStart s).

(** [s.split(sep)] for a one-character separator: never the empty
    array, [''.split(',')] is [['']]. *)
Fixpoint split (sep : ascii) (s : string) : list string :=
  match s with
  | EmptyString => [EmptyString]
  | String c s' =>
      if Ascii.eqb c sep then EmptyString :: split sep s'
      else match split sep s' with
           | [] => [String c EmptyString]
           | p :: ps => String c p :: ps
           end
  end.

(** [xs.join(sep)] on strings. *)
Fixpoint join (sep : string) (xs : list string) : string :=
  match xs with
  | [] => EmptyString
  | [x] => x
  | x :: rest => x ++ sep ++ join sep rest
  end.

(** [Array.prototype.sort(cmp)]: the comparator answers a number, an
    element [a] stays before [b] when [cmp a b <= 0].  The sort is
    stable (ECMAScript 2019), so for a consistent comparator its result
    is the one of any stable sort; insertion from the right is one. *)
Section Sort.
Context {A : Type} (cmp : A -> A -> Z).

Fixpoint insert (x : A) (l : list A) : list A :=
  match l with
  | [] => [x]
  | y :: l' => if cmp x y <=? 0 then x :: l else y :: insert x l'
  end.

Fixpoint sort (l : list A) : list A :=
  match l with
  | [] => []
  | x :: l' => insert x (sort l')
  end.

(** [a] may stand before [b]. *)
Definition before (a b : A) : Prop := cmp a b <= 0.
End Sort.

(** Decimal text of a number, as [String(n)] and template literals
    give for an integer. *)
Fixpoint digitsOf (fuel : nat) (n : Z) (acc : string) : string :=
  match fuel with
  | O => acc
  | S fuel' =>
      let acc' := String (ascii_of_N (Z.to_N (48 + n mod 10))) acc in
      if n / 10 =? 0 then acc' else digitsOf fuel' (n / 10) acc'
  end.

Definition toString (n : Z) : string :=
  if n <? 0 then String "-" (digitsOf (Z.to_nat (Z.log2 (- n)) + 1) (- n) EmptyString)
  else digitsOf (Z.to_nat (Z.log2 n) + 1) n EmptyString.

(** The value of a run of decimal digits, [None] on any other
    character. *)
Definition digit (c : ascii) : option Z :=
  let n := Z.of_N (N_of_ascii c) in
  if (48 <=? n) && (n <=? 57) then Some (n - 48) else None.

Fixpoint parse_digits (s : string) (acc : Z) : option Z :=
  match s with
  | EmptyString => Some acc
  | String c s' =>
      match digit c with
      | Some d => parse_digits s' (10 * acc + d)
      | None => None
      end
  end.

(** A callback applied to each element, as [xs.map(f)] does; [None] is
    the callback throwing. *)
Fixpoint traverse {A B} (f : A -> option B) (xs : list A) : option (list B) :=
  match xs with
  | [] => Some []
  | x :: rest =>
      match f x with
      | Some y => option_map (cons y) (traverse f rest)
      | None => None
      end
  end.

End Js.

(* ----------------------------------------------------------------- *)
(** ** The store: tables and rows

    One module per table, so that the columns keep the names they have
    in the queries of [server.js].  Identifiers and prices are numbers;
    the handlers never compute with a price, they only pass it on. *)

Module business_info.
Record row := {
  id : Z;
  manager_first_name : string;
  manager_last_name : string;
  horeca_name : string;
  address : option string;
  phone_number : string;
  email : string;
  password : string
}.
End business_info.

Module categories.
Record row := { category_name : string }.
End categories.

Module subcategories.
Record row := { subcat_name : string }.
End subcategories.

(** A product row with its two to-one relations as the store embeds
    them: [categories] and [subcategories] are [None] when the foreign
    key is null. *)
Module products.
Record row := {
  id_product : Z;
  name : string;
  brand : string;
  id_category : Z;
  production_city : string;
  production_country : string;
  is_trending : bool;
  is_high_margin : bool;
  eco_friendly : bool;
  season : option string;
  categories : option categories.row;
  subcategories : option subcategories.row
}.
End products.

Module menu_items.
Record row := {
  id_menu_item : Z;
  business_id : Z;
  product_id : Z;
  price : Z;
  created_at : string
}.
End menu_items.

Module sales.
Record row := { menu_item_id : Z; sold_at : string }.
End sales.

Module Db.
Record t := {
  business_info : list business_info.row;
  products : list products.row;
  menu_items : list menu_items.row;
  sales : list sales.row
}.
End Db.

(** A [menu_items] row with the relations a nested select embeds:
    [products] is the to-one relation over [product_id], [sales] the
    to-many relation over [menu_item_id] (an array, empty when the item
    has no sale). *)
Module joined.
Record row := {
  id_menu_item : Z;
  price : Z;
  created_at : string;
  product_id : Z;
  products : option products.row;
  sales : list sales.row
}.
End joined.

(* ----------------------------------------------------------------- *)
(** ** The store client

    What a call returns: [{ data, error }].  [fault n] is the error of
    the [n]-th store call of a request, [None] when that call goes
    through; a call that fails leaves the tables as they were. *)

Inductive answer (A : Type) : Type :=
| Data (data : A)
| Error (message : string).
Arguments Data {A} data.
Arguments Error {A} message.

Definition faults := nat -> option string.

Definition no_fault : faults := fun _ => None.

Module Client.

(** [.maybeSingle()]: no row is [null], one row is that row, more
    rows are an error. *)
Definition maybeSingle {A} (rows : list A) : answer (option A) :=
  match rows with
  | [] => Data None
  | [r] => Data (Some r)
  | _ => Error "JSON object requested, multiple (or no) rows returned"
  end.

(** [.single()]: exactly one row, anything else is an error. *)
Definition single {A} (rows : list A) : answer (option A) :=
  match rows with
  | [r] => Data (Some r)
  | _ => Error "JSON object requested, multiple (or no) rows returned"
  end.

(** [from('menu_items').select(...).eq('business_id', businessId)]
    with the relations embedded. *)
Definition embed (db : Db.t) (mi : menu_items.row) : joined.row :=
  {| joined.id_menu_item := menu_items.id_menu_item mi;
     joined.price := menu_items.price mi;
     joined.created_at := menu_items.created_at mi;
     joined.product_id := menu_items.product_id mi;
     joined.products :=
       find (fun p => products.id_product p =? menu_items.product_id mi)
            (Db.products db);
     joined.sales :=
       filter (fun s => sales.menu_item_id s =? menu_items.id_menu_item mi)
              (Db.sales db) |}.

Definition menu_items_of (db : Db.t) (businessId : Z) : list joined.row :=
  map (embed db)
      (filter (fun mi => menu_items.business_id mi =? businessId)
              (Db.menu_items db)).

(** [rel!inner(...)] keeps a row only when the relation is there. *)
Definition has_products (r : joined.row) : bool :=
  match joined.products r with Some _ => true | None => false end.

Definition has_categories (r : joined.row) : bool :=
  match joined.products r with
  | Some p => match products.categories p with Some _ => true | None => false end
  | None => false
  end.

Definition has_subcategories (r : joined.row) : bool :=
  match joined.products r with
  | Some p => match products.subcategories p with Some _ => true | None => false end
  | None => false
  end.

(** [products!inner(..., categories!inner(...), subcategories(...))] *)
Definition menu_items_inner (db : Db.t) (businessId : Z) : list joined.row :=
  filter (fun r => has_products r && has_categories r)
         (menu_items_of db businessId).

(** [products!inner(..., categories!inner(...), subcategories!inner(...))] *)
Definition menu_items_inner_sub (db : Db.t) (businessId : Z) : list joined.row :=
  filter (fun r => has_products r && has_categories r && has_subcategories r)
         (menu_items_of db businessId).

(** [from('sales').delete().eq('menu_item_id', id)] *)
Definition delete_sales (db : Db.t) (menuItemId : Z) : Db.t :=
  {| Db.business_info := Db.business_info db;
     Db.products := Db.products db;
     Db.menu_items := Db.menu_items db;
     Db.sales :=
       filter (fun s => negb (sales.menu_item_id s =? menuItemId))
              (Db.sales db) |}.

Definition matches (menuItemId businessId : Z) (mi : menu_items.row) : bool :=
  (menu_items.id_menu_item mi =? menuItemId)
  && (menu_items.business_id mi =? businessId).

(** [from('menu_items').delete({ count: 'exact' }).match({...})]: the
    new tables and the number of rows deleted. *)
Definition delete_menu_item (db : Db.t) (menuItemId businessId : Z)
  : Db.t * nat :=
  ({| Db.business_info := Db.business_info db;
      Db.products := Db.products db;
      Db.menu_items :=
        filter (fun mi => negb (matches menuItemId businessId mi))
               (Db.menu_items db);
      Db.sales := Db.sales db |},
   List.length (filter (matches menuItemId businessId) (Db.menu_items db))).

Definition set_price (price : Z) (mi : menu_items.row) : menu_items.row :=
  {| menu_items.id_menu_item := menu_items.id_menu_item mi;
     menu_items.business_id := menu_items.business_id mi;
     menu_items.product_id := menu_items.product_id mi;
     menu_items.price := price;
     menu_items.created_at := menu_items.created_at mi |}.

(** [from('menu_items').update({ price }).match({...})] *)
Definition update_price (db : Db.t) (menuItemId businessId price : Z) : Db.t :=
  {| Db.business_info := Db.business_info db;
     Db.products := Db.products db;
     Db.menu_items :=
       map (fun mi => if matches menuItemId businessId mi
                      then set_price price mi else mi)
           (Db.menu_items db);
     Db.sales := Db.sales db |}.

(** The operand of an [in] filter, [(v1,v2,...)], as the REST layer of
    the store reads it: the text between the parentheses split at the
    commas, each piece read as an integer; the one empty piece of [()]
    is the empty list.  [None] is the store rejecting the operand. *)
Definition parse_int (s : string) : option Z :=
  match s with
  | EmptyString => None
  | String "-" (String c s') => option_map Z.opp (Js.parse_digits (String c s') 0)
  | _ => Js.parse_digits s 0
  end.

Fixpoint parse_all (xs : list string) : option (list Z) :=
  match xs with
  | [] => Some []
  | x :: rest =>
      match parse_int x, parse_all rest with
      | Some n, Some ns => Some (n :: ns)
      | _, _ => None
      end
  end.

Fixpoint dropLast (s : string) : option string :=
  match s with
  | EmptyString => None
  | String ")" EmptyString => Some EmptyString
  | String c s' => option_map (String c) (dropLast s')
  end.

Definition parse_in_list (operand : string) : option (list Z) :=
  match operand with
  | String "(" rest =>
      match dropLast rest with
      | Some body =>
          match Js.split "," body with
          | [EmptyString] => Some []
          | pieces => parse_all pieces
          end
      | None => None
      end
  | _ => None
  end.

Definition mem (x : Z) (xs : list Z) : bool := existsb (Z.eqb x) xs.

End Client.

(* ----------------------------------------------------------------- *)
(** ** A plain object used as a map: [{}] and [acc[key]]

    The own properties are kept in insertion order.  A read of a key
    that is no own property goes to [Object.prototype]: its methods are
    functions, [__proto__] is the prototype object itself, anything
    else is [undefined].  [nativeText k] is the source text the engine
    gives the built-in method [k]. *)

Module Obj.

Inductive value : Type :=
| Num (n : Z)
| Str (s : string).

Inductive lookup : Type :=
| Own (v : value)
| Method (name : string)
| Prototype
| Undefined.

Definition t := list (string * value).

Definition methods : list string :=
  [ "constructor"; "toString"; "toLocaleString"; "valueOf";
    "hasOwnProperty"; "isPrototypeOf"; "propertyIsEnumerable";
    "__defineGetter__"; "__defineSetter__";
    "__lookupGetter__"; "__lookupSetter__" ].

Fixpoint own (o : t) (k : string) : option value :=
  match o with
  | [] => None
  | (k', v) :: o' => if String.eqb k' k then Some v else own o' k
  end.

(** [o[k]] *)
Definition get (o : t) (k : string) : lookup :=
  match own o k with
  | Some v => Own v
  | None =>
      if String.eqb k "__proto__" then Prototype
      else if existsb (String.eqb k) methods then Method k
      else Undefined
  end.

Fixpoint put (o : t) (k : string) (v : value) : t :=
  match o with
  | [] => [(k, v)]
  | (k', v') :: o' =>
      if String.eqb k' k then (k', v) :: o' else (k', v') :: put o' k v
  end.

(** [o[k] = v] for a number or a string [v]: the [__proto__] setter
    ignores such a value, any other key becomes or stays an own
    property. *)
Definition set (o : t) (k : string) (v : value) : t :=
  if String.eqb k "__proto__" then o else put o k v.

(** [(x || 0) + 1] *)
Definition orZeroPlusOne (nativeText : string -> string) (x : lookup) : value :=
  match x with
  | Own (Num n) => Num (n + 1)
  | Own (Str EmptyString) => Num 1
  | Own (Str s) => Str (s ++ "1")
  | Method k => Str (nativeText k ++ "1")
  | Prototype => Str "[object Object]1"
  | Undefined => Num 1
  end.

(** An array index is the canonical decimal text of an integer below
    [2^32 - 1]. *)
Definition arrayIndex (k : string) : option Z :=
  match Js.parse_digits k 0 with
  | Some n =>
      if String.eqb (Js.toString n) k && (n <? 4294967295) then Some n
      else None
  | None => None
  end.

Definition isIndex (e : string * value) : bool :=
  match arrayIndex (fst e) with Some _ => true | None => false end.

Definition indexOf (e : string * value) : Z :=
  match arrayIndex (fst e) with Some n => n | None => 0 end.

(** [o[k] = (o[k] || 0) + 1] *)
Definition increment (nativeText : string -> string) (o : t) (k : string) : t :=
  set o k (orZeroPlusOne nativeText (get o k)).

(** A key that [Object.prototype] answers for. *)
Definition inherited (k : string) : bool :=
  String.eqb k "__proto__" || existsb (String.eqb k) methods.

(** [Object.entries(o)]: the array indices in ascending order, then
    the other keys in insertion order. *)
Definition entries (o : t) : list (string * value) :=
  Js.sort (fun a b => indexOf a - indexOf b) (filter isIndex o)
  ++ filter (fun e => negb (isIndex e)) o.

End Obj.

(* ----------------------------------------------------------------- *)
(** ** Sessions, response bodies and outcomes *)

Module session_user.
Record t := {
  id : Z;
  email : string;
  horeca_name : string;
  manager_first_name : string;
  manager_last_name : string
}.
End session_user.

(** [req.session.user], absent before a login. *)
Definition session := option session_user.t.

Module MenuItemView.
Record t := {
  id_menu_item : Z;
  price : Z;
  created_at : string;
  item_name : string;
  producent : string;
  category : string;
  subcategory : string
}.
End MenuItemView.

Module SalesStatView.
Record t := {
  id_menu_item : Z;
  item_name : string;
  producent : string;
  category : string;
  subcategory : string;
  price : Z;
  created_at : string;
  total_sold : nat;
  last_year_sold : nat;
  is_trending : bool;
  is_high_margin : bool;
  eco_friendly : bool;
  season : option string;
  prodCity : string;
  prodCountry : string
}.
End SalesStatView.

Module LastYearView.
Record t := {
  id_menu_item : Z;
  id_category : Z;
  item_name : string;
  producent : string;
  category : string;
  subcategorie : string;
  price : Z;
  created_at : string;
  land : string;
  stad : string;
  total_sold : nat;
  is_trending : bool;
  is_high_margin : bool;
  eco_friendly : bool;
  season : string
}.
End LastYearView.

Module NotOnMenuView.
Record t := {
  id : Z;
  name : string;
  brand : string;
  category : string;
  prodCity : string;
  prodCountry : string;
  is_trending : bool;
  is_high_margin : bool;
  eco_friendly : bool;
  season : option string
}.
End NotOnMenuView.

Module CategoryCount.
Record t := { category : string; count_on_menu : Obj.value }.
End CategoryCount.

Inductive body : Type :=
| error_ (error : string)
| failure (message : string)
| success
| logged_in (business_id : Z) (horeca_name : string)
| menu_item_views (views : list MenuItemView.t)
| sales_stats (stats : list SalesStatView.t)
| last_year_stats (stats : list LastYearView.t)
| not_on_menu (flattened : list NotOnMenuView.t)
| category_counts (results : list CategoryCount.t)
| city_country (city country : string).

(** What a request ends in: a response with its status ([res.json]
    alone is status 200), or an exception leaving a handler that has no
    [try], in which case no response is written. *)
Inductive outcome : Type :=
| Reply (status : Z) (b : body)
| Unhandled.

Definition not_authenticated : outcome :=
  Reply 401 (error_ "Not authenticated").

(* ----------------------------------------------------------------- *)
(** ** The handlers of [server.js]

    What the handlers take from outside the file: [compareSync] of the
    password hasher, [localeCompare] of the engine, the text of built-in
    methods, and [collate], the comparison behind the store's
    [.order('name', { ascending: true })]. *)

(** An element of the [updates] array of PATCH /api/menu-items. *)
Module update.
Record t := { id_menu_item : Z; price : Z }.
End update.

Section Handlers.

Variable compareSync : string -> string -> bool.
Variable localeCompare : string -> string -> Z.
Variable nativeText : string -> string.
Variable collate : string -> string -> Z.

(** *** POST /api/login *)

Definition invalid_credentials : outcome :=
  Reply 401 (failure "Invalid credentials").

Definition login (fault : faults) (db : Db.t) (sess : session)
           (email password : string) : outcome * session :=
  match fault 0%nat with
  | Some _ => (Reply 500 (failure "Database error"), sess)
  | None =>
      match Client.maybeSingle
              (filter (fun b => String.eqb (business_info.email b) email)
                      (Db.business_info db)) with
      | Error _ => (Reply 500 (failure "Database error"), sess)
      | Data None => (invalid_credentials, sess)
      | Data (Some user) =>
          if negb (compareSync password (business_info.password user))
          then (invalid_credentials, sess)
          else
            (Reply 200 (logged_in (business_info.id user)
                                  (business_info.horeca_name user)),
             Some {| session_user.id := business_info.id user;
                     session_user.email := business_info.email user;
                     session_user.horeca_name := business_info.horeca_name user;
                     session_user.manager_first_name :=
                       business_info.manager_first_name user;
                     session_user.manager_last_name :=
                       business_info.manager_last_name user |})
      end
  end.

(** *** GET /api/menu-items *)

Definition subcat_or_empty (sub : option subcategories.row) : string :=
  match sub with
  | Some s => subcategories.subcat_name s
  | None => EmptyString
  end.

Definition shapeMenuItem (mi : joined.row) : option MenuItemView.t :=
  match joined.products mi with
  | None => None
  | Some prod =>
      match products.categories prod with
      | None => None
      | Some cat =>
          Some {| MenuItemView.id_menu_item := joined.id_menu_item mi;
                  MenuItemView.price := joined.price mi;
                  MenuItemView.created_at := joined.created_at mi;
                  MenuItemView.item_name := products.name prod;
                  MenuItemView.producent := products.brand prod;
                  MenuItemView.category := categories.category_name cat;
                  MenuItemView.subcategory :=
                    subcat_or_empty (products.subcategories prod) |}
      end
  end.

Definition get_menu_items (fault : faults) (db : Db.t) (sess : session)
  : outcome :=
  match sess with
  | None => not_authenticated
  | Some user =>
      let businessId := session_user.id user in
      match fault 0%nat with
      | Some message => Reply 500 (error_ message)
      | None =>
          match Js.traverse shapeMenuItem (Client.menu_items_of db businessId) with
          | Some flattened => Reply 200 (menu_item_views flattened)
          | None => Unhandled
          end
      end
  end.

(** *** DELETE /api/menu-items/:id *)

Definition delete_menu_item (fault : faults) (db : Db.t) (sess : session)
           (id : Z) : outcome * Db.t :=
  match sess with
  | None => (not_authenticated, db)
  | Some user =>
      let businessId := session_user.id user in
      let menuItemId := id in
      match fault 0%nat with
      | Some _ => (Reply 500 (error_ "Failed deleting sales"), db)
      | None =>
          let db1 := Client.delete_sales db menuItemId in
          match fault 1%nat with
          | Some _ => (Reply 500 (error_ "Failed deleting menu item"), db1)
          | None =>
              let (db2, count) :=
                Client.delete_menu_item db1 menuItemId businessId in
              if Nat.eqb count 0
              then (Reply 404 (error_ "Item not found or no rights"), db2)
              else (Reply 200 success, db2)
          end
      end
  end.

(** *** PATCH /api/menu-items

    [updates] is [None] when [req.body.updates] is no array.  An
    element is an object with the two fields, or [None] for a [null]
    element, on which the destructuring of the loop header throws. *)

Definition failed_updating : outcome :=
  Reply 500 (error_ "Failed updating prices").

Fixpoint update_loop (fault : faults) (call : nat) (businessId : Z)
         (updates : list (option update.t)) (db : Db.t) : outcome * Db.t :=
  match updates with
  | [] => (Reply 200 success, db)
  | None :: _ => (failed_updating, db)
  | Some u :: rest =>
      match fault call with
      | Some _ => (failed_updating, db)
      | None =>
          update_loop fault (S call) businessId rest
            (Client.update_price db (update.id_menu_item u) businessId
                                 (update.price u))
      end
  end.

Definition patch_menu_items (fault : faults) (db : Db.t) (sess : session)
           (updates : option (list (option update.t))) : outcome * Db.t :=
  match sess with
  | None => (not_authenticated, db)
  | Some user =>
      let businessId := session_user.id user in
      match updates with
      | None => (Reply 400 (error_ "Invalid payload"), db)
      | Some updates => update_loop fault 0 businessId updates db
      end
  end.

(** *** GET /api/sales *)

Definition in_window (start end_ : string) (s : sales.row) : bool :=
  Js.str_ge (sales.sold_at s) start && Js.str_le (sales.sold_at s) end_.

Definition salesStat (mi : joined.row) : option SalesStatView.t :=
  match joined.products mi with
  | None => None
  | Some prod =>
      let sub := products.subcategories prod in
      let thisYear :=
        List.length (filter (in_window "2025-01-01" "2025-12-31") (joined.sales mi)) in
      let lastYear :=
        List.length (filter (in_window "2024-01-01" "2024-12-31") (joined.sales mi)) in
      match products.categories prod with
      | None => None
      | Some cat =>
          Some {| SalesStatView.id_menu_item := joined.id_menu_item mi;
                  SalesStatView.item_name := products.name prod;
                  SalesStatView.producent := products.brand prod;
                  SalesStatView.category := categories.category_name cat;
                  SalesStatView.subcategory := subcat_or_empty sub;
                  SalesStatView.price := joined.price mi;
                  SalesStatView.created_at := joined.created_at mi;
                  SalesStatView.total_sold := thisYear;
                  SalesStatView.last_year_sold := lastYear;
                  SalesStatView.is_trending := products.is_trending prod;
                  SalesStatView.is_high_margin := products.is_high_margin prod;
                  SalesStatView.eco_friendly := products.eco_friendly prod;
                  SalesStatView.season := products.season prod;
                  SalesStatView.prodCity := products.production_city prod;
                  SalesStatView.prodCountry := products.production_country prod |}
      end
  end.

Definition server_error : outcome := Reply 500 (error_ "Server error").

Definition get_sales (fault : faults) (db : Db.t) (sess : session) : outcome :=
  match sess with
  | None => not_authenticated
  | Some user =>
      let businessId := session_user.id user in
      match fault 0%nat with
      | Some _ => Reply 500 (error_ "Database error")
      | None =>
          match Js.traverse salesStat (Client.menu_items_inner db businessId) with
          | Some stats => Reply 200 (sales_stats stats)
          | None => server_error
          end
      end
  end.

(** *** GET /api/business-info *)

Definition splitAddress (address : option string) : string * string :=
  let address :=
    match address with
    | None | Some EmptyString => EmptyString
    | Some a => a
    end in
  let parts := map Js.trim (Js.split "," address) in
  let city :=
    if (1 <? Z.of_nat (List.length parts))
    then nth (List.length parts - 1) parts EmptyString
    else EmptyString in
  (city, EmptyString).

Definition get_business_info (fault : faults) (db : Db.t) (sess : session)
  : outcome :=
  match sess with
  | None => not_authenticated
  | Some user =>
      let businessId := session_user.id user in
      match fault 0%nat with
      | Some _ => Reply 500 (error_ "Database error")
      | None =>
          match Client.single
                  (filter (fun b => business_info.id b =? businessId)
                          (Db.business_info db)) with
          | Error _ => Reply 500 (error_ "Database error")
          | Data None => Reply 404 (error_ "Business not found")
          | Data (Some row) =>
              let (city, country) := splitAddress (business_info.address row) in
              Reply 200 (city_country city country)
          end
      end
  end.

(** *** GET /api/sales/last-year

    [now_year] is [new Date().getFullYear()] at the time of the
    request. *)

Definition lastYearStat (start end_ : string) (mi : joined.row)
  : option LastYearView.t :=
  match joined.products mi with
  | None => None
  | Some prod =>
      let sub := products.subcategories prod in
      let total_sold :=
        List.length (filter (in_window start end_) (joined.sales mi)) in
      match products.categories prod with
      | None => None
      | Some cat =>
          Some {| LastYearView.id_menu_item := joined.id_menu_item mi;
                  LastYearView.id_category := products.id_category prod;
                  LastYearView.item_name := products.name prod;
                  LastYearView.producent := products.brand prod;
                  LastYearView.category := categories.category_name cat;
                  LastYearView.subcategorie := subcat_or_empty sub;
                  LastYearView.price := joined.price mi;
                  LastYearView.created_at := joined.created_at mi;
                  LastYearView.land := products.production_country prod;
                  LastYearView.stad := products.production_city prod;
                  LastYearView.total_sold := total_sold;
                  LastYearView.is_trending := products.is_trending prod;
                  LastYearView.is_high_margin := products.is_high_margin prod;
                  LastYearView.eco_friendly := products.eco_friendly prod;
                  LastYearView.season :=
                    match products.season prod with
                    | Some s => s
                    | None => "Unknown"
                    end |}
      end
  end.

Definition by_id_menu_item (a b : LastYearView.t) : Z :=
  LastYearView.id_menu_item a - LastYearView.id_menu_item b.

Definition get_sales_last_year (now_year : Z) (fault : faults) (db : Db.t)
           (sess : session) : outcome :=
  match sess with
  | None => not_authenticated
  | Some user =>
      let businessId := session_user.id user in
      let lastYear := now_year - 1 in
      let start := Js.toString lastYear ++ "-01-01" in
      let end_ := Js.toString lastYear ++ "-12-31" in
      match fault 0%nat with
      | Some _ => Reply 500 (error_ "Database error")
      | None =>
          match Js.traverse (lastYearStat start end_)
                            (Client.menu_items_inner_sub db businessId) with
          | Some stats => Reply 200 (last_year_stats (Js.sort by_id_menu_item stats))
          | None => server_error
          end
      end
  end.

(** *** GET /api/items-not-on-menu *)

(** [from('products').select(...categories!inner(...))
      .not('id_product', 'in', operand).order('name', { ascending: true })]:
    the store rejects an operand it cannot read; rows of equal name
    come in table order. *)
Definition products_not_in (db : Db.t) (operand : string)
  : answer (list products.row) :=
  match Client.parse_in_list operand with
  | None => Error "failed to parse filter"
  | Some ids =>
      Data (Js.sort (fun p q => collate (products.name p) (products.name q))
              (filter (fun p =>
                         match products.categories p with
                         | Some _ => negb (Client.mem (products.id_product p) ids)
                         | None => false
                         end)
                      (Db.products db)))
  end.

Definition flattenProduct (p : products.row) : option NotOnMenuView.t :=
  match products.categories p with
  | None => None
  | Some cat =>
      Some {| NotOnMenuView.id := products.id_product p;
              NotOnMenuView.name := products.name p;
              NotOnMenuView.brand := products.brand p;
              NotOnMenuView.category := categories.category_name cat;
              NotOnMenuView.prodCity := products.production_city p;
              NotOnMenuView.prodCountry := products.production_country p;
              NotOnMenuView.is_trending := products.is_trending p;
              NotOnMenuView.is_high_margin := products.is_high_margin p;
              NotOnMenuView.eco_friendly := products.eco_friendly p;
              NotOnMenuView.season := products.season p |}
  end.

Definition get_items_not_on_menu (fault : faults) (db : Db.t) (sess : session)
  : outcome :=
  match sess with
  | None => not_authenticated
  | Some user =>
      let businessId := session_user.id user in
      match fault 0%nat with
      | Some _ => Reply 500 (error_ "Database error fetching menu items")
      | None =>
          let menuItems :=
            filter (fun mi => menu_items.business_id mi =? businessId)
                   (Db.menu_items db) in
          let takenIds := map menu_items.product_id menuItems in
          let operand := "(" ++ Js.join "," (map Js.toString takenIds) ++ ")" in
          match fault 1%nat with
          | Some _ => Reply 500 (error_ "Database error fetching products")
          | None =>
              match products_not_in db operand with
              | Error _ => Reply 500 (error_ "Database error fetching products")
              | Data products =>
                  match Js.traverse flattenProduct products with
                  | Some flattened => Reply 200 (not_on_menu flattened)
                  | None => server_error
                  end
              end
          end
      end
  end.

(** *** GET /api/menu-counts *)

Definition category_of (mi : joined.row) : option string :=
  match joined.products mi with
  | None => None
  | Some prod =>
      match products.categories prod with
      | None => None
      | Some cat => Some (categories.category_name cat)
      end
  end.

(** The callback of [items.reduce(..., {})]; [None] once it has
    thrown. *)
Definition count_step (acc : option Obj.t) (mi : joined.row) : option Obj.t :=
  match acc with
  | None => None
  | Some acc =>
      match category_of mi with
      | None => None
      | Some cat =>
          Some (Obj.increment nativeText acc cat)
      end
  end.

Definition countsMap (items : list joined.row) : option Obj.t :=
  fold_left count_step items (Some []).

Definition toCategoryCount (e : string * Obj.value) : CategoryCount.t :=
  {| CategoryCount.category := fst e; CategoryCount.count_on_menu := snd e |}.

Definition by_category (a b : CategoryCount.t) : Z :=
  localeCompare (CategoryCount.category a) (CategoryCount.category b).

Definition countByCategory (items : list joined.row)
  : option (list CategoryCount.t) :=
  match countsMap items with
  | None => None
  | Some countsMap =>
      Some (Js.sort by_category (map toCategoryCount (Obj.entries countsMap)))
  end.

Definition get_menu_counts (fault : faults) (db : Db.t) (sess : session)
  : outcome :=
  match sess with
  | None => not_authenticated
  | Some user =>
      let businessId := session_user.id user in
      match fault 0%nat with
      | Some _ => Reply 500 (error_ "Database error")
      | None =>
          match countByCategory (Client.menu_items_inner db businessId) with
          | Some results => Reply 200 (category_counts results)
          | None => server_error
          end
      end
  end.

End Handlers.

(* ----------------------------------------------------------------- *)
(** ** Reference definitions

    Calendar dates and the text the store gives a [date] column,
    zero-padded [YYYY-MM-DD]; the window count of the specification, on
    dates rather than on text. *)

Module Ref.

Record date := { year : Z; month : Z; day : Z }.

Definition valid (d : date) : Prop :=
  0 <= year d <= 9999 /\ 1 <= month d <= 12 /\ 1 <= day d <= 31.

Definition dchar (n : Z) : ascii := ascii_of_N (Z.to_N (48 + n)).

Definition pad2 (n : Z) (rest : string) : string :=
  String (dchar (n / 10)) (String (dchar (n mod 10)) rest).

Definition pad4 (n : Z) (rest : string) : string :=
  String (dchar (n / 1000)) (String (dchar (n / 100 mod 10))
    (pad2 (n mod 100) rest)).

Definition iso (d : date) : string :=
  pad4 (year d) (String "-" (pad2 (month d) (String "-" (pad2 (day d) EmptyString)))).

(** [a] is [b] or an earlier day. *)
Definition date_leb (a b : date) : bool :=
  (year a <? year b)
  || ((year a =? year b)
      && ((month a <? month b)
          || ((month a =? month b) && (day a <=? day b)))).

(** The window of a reference year: from its first of January to its
    31st of December, both included. *)
Definition in_year_window (referenceYear : Z) (d : date) : bool :=
  date_leb {| year := referenceYear; month := 1; day := 1 |} d
  && date_leb d {| year := referenceYear; month := 12; day := 31 |}.

(** The sales as dated events, and the rows the store holds for them. *)
Definition event := (Z * date)%type.

Definition sale_row (e : event) : sales.row :=
  {| sales.menu_item_id := fst e; sales.sold_at := iso (snd e) |}.

(** Number of sales of one menu item inside the window of a year. *)
Definition window_count (events : list event) (menuItem referenceYear : Z) : nat :=
  List.length
    (filter (fun e => (fst e =? menuItem) && in_year_window referenceYear (snd e))
            events).

End Ref.

(* ----------------------------------------------------------------- *)
(** ** A small store to run the handlers on

    Two businesses: business 1 has the menu items 5 and 3, business 2
    has the menu item 7.  The product of item 5 has no subcategory; the
    product of items 3 and 7 has no season. *)

Module Sample.

Definition ordinal (a b : string) : Z :=
  match String.compare a b with Lt => -1 | Eq => 0 | Gt => 1 end.

Definition hashOf (password : string) : string := "hash:" ++ password.

Definition compareSync (password hash : string) : bool :=
  String.eqb (hashOf password) hash.

Definition nativeText (k : string) : string :=
  "function " ++ k ++ "() { [native code] }".

Definition anna : business_info.row :=
  {| business_info.id := 1;
     business_info.manager_first_name := "Anna";
     business_info.manager_last_name := "Peeters";
     business_info.horeca_name := "Cafe Anna";
     business_info.address := Some "Main St 5, Springfield";
     business_info.phone_number := "0470000001";
     business_info.email := "anna@cafe.example";
     business_info.password := hashOf "tulip" |}.

Definition bob : business_info.row :=
  {| business_info.id := 2;
     business_info.manager_first_name := "Bob";
     business_info.manager_last_name := "Janssens";
     business_info.horeca_name := "Bistro Bob";
     business_info.address := Some "NoCommaHere";
     business_info.phone_number := "0470000002";
     business_info.email := "bob@bistro.example";
     business_info.password := hashOf "daisy" |}.

Definition drinks : categories.row := {| categories.category_name := "Drinks" |}.
Definition food : categories.row := {| categories.category_name := "Food" |}.

Definition cola : products.row :=
  {| products.id_product := 10; products.name := "Cola";
     products.brand := "ColaCo"; products.id_category := 1;
     products.production_city := "Gent"; products.production_country := "BE";
     products.is_trending := true; products.is_high_margin := false;
     products.eco_friendly := false; products.season := None;
     products.categories := Some drinks;
     products.subcategories := Some {| subcategories.subcat_name := "Soft" |} |}.

Definition bread : products.row :=
  {| products.id_product := 11; products.name := "Bread";
     products.brand := "Bakker"; products.id_category := 2;
     products.production_city := "Leuven"; products.production_country := "BE";
     products.is_trending := false; products.is_high_margin := true;
     products.eco_friendly := true; products.season := Some "Winter";
     products.categories := Some food;
     products.subcategories := None |}.

Definition pie : products.row :=
  {| products.id_product := 12; products.name := "Apple pie";
     products.brand := "Bakker"; products.id_category := 2;
     products.production_city := "Leuven"; products.production_country := "BE";
     products.is_trending := false; products.is_high_margin := false;
     products.eco_friendly := true; products.season := Some "Autumn";
     products.categories := Some food;
     products.subcategories := Some {| subcategories.subcat_name := "Dessert" |} |}.

Definition item (id business product price : Z) : menu_items.row :=
  {| menu_items.id_menu_item := id; menu_items.business_id := business;
     menu_items.product_id := product; menu_items.price := price;
     menu_items.created_at := "2024-01-10T09:00:00" |}.

Definition on (y m d : Z) : Ref.date :=
  {| Ref.year := y; Ref.month := m; Ref.day := d |}.

Definition events : list Ref.event :=
  [ (3, on 2025 1 1); (3, on 2025 12 31); (3, on 2024 6 15);
    (3, on 2026 1 1); (5, on 2025 7 1); (7, on 2025 3 3);
    (7, on 2024 12 31) ].

(** The same events without the sale of 2024. *)
Definition events_without_2024 : list Ref.event :=
  [ (3, on 2025 1 1); (3, on 2025 12 31);
    (3, on 2026 1 1); (5, on 2025 7 1); (7, on 2025 3 3);
    (7, on 2024 12 31) ].

Definition store (sold : list Ref.event) : Db.t :=
  {| Db.business_info := [anna; bob];
     Db.products := [cola; bread; pie];
     Db.menu_items := [item 5 1 11 300; item 3 1 10 250; item 7 2 10 275];
     Db.sales := map Ref.sale_row sold |}.

Definition db : Db.t := store events.

(** A store that rejects the second call of a request. *)
Definition second_call_fails : faults :=
  fun call => if Nat.eqb call 1 then Some "violates check constraint" else None.

Definition anna_user : session_user.t :=
  {| session_user.id := 1; session_user.email := "anna@cafe.example";
     session_user.horeca_name := "Cafe Anna";
     session_user.manager_first_name := "Anna";
     session_user.manager_last_name := "Peeters" |}.

Definition as_anna : session := Some anna_user.

Definition as_bob : session :=
  Some {| session_user.id := 2; session_user.email := "bob@bistro.example";
          session_user.horeca_name := "Bistro Bob";
          session_user.manager_first_name := "Bob";
          session_user.manager_last_name := "Janssens" |}.

(** A third business, with nothing on its menu yet. *)
Definition newcomer : session_user.t :=
  {| session_user.id := 9; session_user.email := "new@bar.example";
     session_user.horeca_name := "Bar Nieuw";
     session_user.manager_first_name := "Nele";
     session_user.manager_last_name := "Maes" |}.

Definition as_newcomer : session := Some newcomer.

End Sample.

(** ** The last-year endpoint in the words of the specification

    One view per menu item of the business; sold counts for the year
    before the year of the clock and for the year before that, the
    second one readable from the view by some [before_last]; the season
    of the product unchanged; ascending order of the identifier. *)
Definition last_year_as_stated : Prop :=
  exists before_last : LastYearView.t -> nat,
  forall (now_year : Z) (db : Db.t) (user : session_user.t)
         (events : list Ref.event),
    1001 <= now_year <= 10000 ->
    Db.sales db = map Ref.sale_row events ->
    (forall e, In e events -> Ref.valid (snd e)) ->
    exists stats,
      get_sales_last_year now_year no_fault db (Some user)
      = Reply 200 (last_year_stats stats)
      /\ Permutation
           (map LastYearView.id_menu_item stats)
           (map menu_items.id_menu_item
                (filter (fun mi => menu_items.business_id mi =? session_user.id user)
                        (Db.menu_items db)))
      /\ Forall (fun v =>
                   LastYearView.total_sold v
                   = Ref.window_count events (LastYearView.id_menu_item v)
                                      (now_year - 1)
                   /\ before_last v
                      = Ref.window_count events (LastYearView.id_menu_item v)
                                         (now_year - 2))
                stats
      /\ Forall (fun v =>
                   forall mi prod,
                     In mi (Db.menu_items db) ->
                     menu_items.id_menu_item mi = LastYearView.id_menu_item v ->
                     joined.products (Client.embed db mi) = Some prod ->
                     products.season prod = Some (LastYearView.season v))
                stats
      /\ Sorted (fun a b => LastYearView.id_menu_item a
                            <= LastYearView.id_menu_item b) stats.

(** ** Reference definitions for the counts per category

    [stored k n] is what an object holds under [k] after [n + 1]
    increments of [k], starting from the empty object; [expected cats k]
    is what it holds after one increment per element of [cats]. *)
Module Tally.

Fixpoint stored (nativeText : string -> string) (k : string) (n : nat)
  : Obj.value :=
  match n with
  | O => Obj.orZeroPlusOne nativeText (Obj.get [] k)
  | S n' => Obj.orZeroPlusOne nativeText (Obj.Own (stored nativeText k n'))
  end.

Definition occ (cats : list string) (k : string) : nat :=
  count_occ string_dec cats k.

Definition expected (nativeText : string -> string) (cats : list string)
           (k : string) : option Obj.value :=
  if String.eqb k "__proto__" then None
  else match occ cats k with
       | O => None
       | S n => Some (stored nativeText k n)
       end.

(** The object is what [expected] says, on distinct keys. *)
Definition holds (nativeText : string -> string) (o : Obj.t)
           (cats : list string) : Prop :=
  NoDup (map fst o) /\ forall k, Obj.own o k = expected nativeText cats k.

(** The array the handler makes of the object. *)
Definition results_of (localeCompare : string -> string -> Z) (o : Obj.t)
  : list CategoryCount.t :=
  Js.sort (by_category localeCompare) (map toCategoryCount (Obj.entries o)).

End Tally.

(** Whether a character occurs in a text. *)
Module Text.

Fixpoint contains (c : ascii) (s : string) : bool :=
  match s with
  | EmptyString => false
  | String c' s' => Ascii.eqb c' c || contains c s'
  end.

End Text.

(* ----------------------------------------------------------------- *)
(** ** The other handlers of [server.js]

    The onboarding, the current user and the creation of a menu item.
    Their success bodies are [{ success, insertedId }],
    [{ success, insertId }] and [{ user }]; every other body of theirs is
    one of the bodies above. *)

Module onboarding.
Record body := {
  manager_first_name : option string;
  manager_last_name : option string;
  horeca_name : option string;
  address : option string;
  phonenumber : option string;
  email : option string;
  password : option string
}.
End onboarding.

Inductive more_body : Type :=
| onboarded (insertedId : Z)
| item_created (insertId : Z)
| current_user (user : session_user.t)
| plain (b : body).

Inductive more_outcome : Type :=
| Answer (status : Z) (b : more_body).

(** [!field] on a text field of the body: absent or empty. *)
Definition missing (field : option string) : bool :=
  match field with
  | None | Some EmptyString => true
  | Some _ => false
  end.

Definition text (field : option string) : string :=
  match field with
  | Some s => s
  | None => EmptyString
  end.

Section MoreHandlers.

(** [bcrypt.hashSync(password, 10)]: the hash of a password under the
    salt drawn for this call. *)
Variable hashSync : string -> string -> string.

(** *** POST /api/complete-onboarding

    [salt] is the salt the hasher draws, [insertedId] the [id] the store
    gives the new row. *)
Definition complete_onboarding (salt : string) (insertedId : Z)
           (fault : faults) (db : Db.t) (req : onboarding.body)
  : more_outcome * Db.t :=
  if missing (onboarding.manager_first_name req)
     || missing (onboarding.manager_last_name req)
     || missing (onboarding.horeca_name req)
     || missing (onboarding.address req)
     || missing (onboarding.phonenumber req)
     || missing (onboarding.email req)
     || missing (onboarding.password req)
  then (Answer 400 (plain (failure "Missing required fields")), db)
  else
    let hashed := hashSync (text (onboarding.password req)) salt in
    match fault 0%nat with
    | Some message => (Answer 500 (plain (failure message)), db)
    | None =>
        (Answer 200 (onboarded insertedId),
         {| Db.business_info :=
              (Db.business_info db ++
               [ {| business_info.id := insertedId;
                    business_info.manager_first_name :=
                      text (onboarding.manager_first_name req);
                    business_info.manager_last_name :=
                      text (onboarding.manager_last_name req);
                    business_info.horeca_name :=
                      text (onboarding.horeca_name req);
                    business_info.address := onboarding.address req;
                    business_info.phone_number :=
                      text (onboarding.phonenumber req);
                    business_info.email := text (onboarding.email req);
                    business_info.password := hashed |} ])%list;
            Db.products := Db.products db;
            Db.menu_items := Db.menu_items db;
            Db.sales := Db.sales db |})
    end.

(** *** GET /api/user *)
Definition get_user (sess : session) : more_outcome :=
  match sess with
  | None => Answer 401 (plain (error_ "Not authenticated"))
  | Some user => Answer 200 (current_user user)
  end.

(** *** POST /api/menu-items

    [insertId] and [created_at] are what the store gives the new row. *)
Definition post_menu_item (insertId : Z) (created_at : string)
           (fault : faults) (db : Db.t) (sess : session)
           (product_id price : Z) : more_outcome * Db.t :=
  match sess with
  | None => (Answer 401 (plain (error_ "Not authenticated")), db)
  | Some user =>
      let businessId := session_user.id user in
      match fault 0%nat with
      | Some _ => (Answer 500 (plain (error_ "Database error")), db)
      | None =>
          (Answer 200 (item_created insertId),
           {| Db.business_info := Db.business_info db;
              Db.products := Db.products db;
              Db.menu_items :=
                (Db.menu_items db ++
                 [ {| menu_items.id_menu_item := insertId;
                      menu_items.business_id := businessId;
                      menu_items.product_id := product_id;
                      menu_items.price := price;
                      menu_items.created_at := created_at |} ])%list;
              Db.sales := Db.sales db |})
      end
  end.

End MoreHandlers.

(** ** More reference definitions *)

Module Spec.

(** The price the last update of an array gives a menu item, if any
    names it. *)
Definition last_price (updates : list update.t) (menuItem : Z) : option Z :=
  fold_left
    (fun found u =>
       if update.id_menu_item u =? menuItem then Some (update.price u) else found)
    updates None.

(** The menu items of a business, and the products on its menu. *)
Definition owned (db : Db.t) (businessId : Z) : list menu_items.row :=
  filter (fun mi => menu_items.business_id mi =? businessId) (Db.menu_items db).

Definition on_menu (db : Db.t) (businessId : Z) (p : products.row) : bool :=
  existsb (fun mi => menu_items.product_id mi =? products.id_product p)
          (owned db businessId).

(** The sum of the counts of an answer of GET /api/menu-counts, a count
    that is no number adding nothing. *)
Definition total (results : list CategoryCount.t) : Z :=
  fold_right
    (fun r acc =>
       match CategoryCount.count_on_menu r with
       | Obj.Num n => n + acc
       | Obj.Str _ => acc
       end)
    0 results.

(** A product that GET /api/items-not-on-menu is to offer: it has its
    category and is not on the menu of the business. *)
Definition offered (db : Db.t) (businessId : Z) (p : products.row) : bool :=
  match products.categories p with
  | Some _ => negb (on_menu db businessId p)
  | None => false
  end.

(** The view of a product, field by field. *)
Definition shown_as (p : products.row) (v : NotOnMenuView.t) : Prop :=
  NotOnMenuView.id v = products.id_product p
  /\ NotOnMenuView.name v = products.name p
  /\ NotOnMenuView.brand v = products.brand p
  /\ Some {| categories.category_name := NotOnMenuView.category v |}
     = products.categories p
  /\ NotOnMenuView.prodCity v = products.production_city p
  /\ NotOnMenuView.prodCountry v = products.production_country p
  /\ NotOnMenuView.is_trending v = products.is_trending p
  /\ NotOnMenuView.is_high_margin v = products.is_high_margin p
  /\ NotOnMenuView.eco_friendly v = products.eco_friendly p
  /\ NotOnMenuView.season v = products.season p.

(** The part of a sales statistic that a menu item view has too. *)
Definition as_menu_item (s : SalesStatView.t) : MenuItemView.t :=
  {| MenuItemView.id_menu_item := SalesStatView.id_menu_item s;
     MenuItemView.price := SalesStatView.price s;
     MenuItemView.created_at := SalesStatView.created_at s;
     MenuItemView.item_name := SalesStatView.item_name s;
     MenuItemView.producent := SalesStatView.producent s;
     MenuItemView.category := SalesStatView.category s;
     MenuItemView.subcategory := SalesStatView.subcategory s |}.

(** The fields of an onboarding request, and the session a login gives
    a business. *)
Definition fields (req : onboarding.body) : list (option string) :=
  [ onboarding.manager_first_name req; onboarding.manager_last_name req;
    onboarding.horeca_name req; onboarding.address req;
    onboarding.phonenumber req; onboarding.email req;
    onboarding.password req ].

Definition session_of (b : business_info.row) : session_user.t :=
  {| session_user.id := business_info.id b;
     session_user.email := business_info.email b;
     session_user.horeca_name := business_info.horeca_name b;
     session_user.manager_first_name := business_info.manager_first_name b;
     session_user.manager_last_name := business_info.manager_last_name b |}.

(** A menu item view after a PATCH: the last update naming it, if any,
    gives the price. *)
Definition repriced (updates : list update.t) (v : MenuItemView.t)
  : MenuItemView.t :=
  match last_price updates (MenuItemView.id_menu_item v) with
  | Some p =>
      {| MenuItemView.id_menu_item := MenuItemView.id_menu_item v;
         MenuItemView.price := p;
         MenuItemView.created_at := MenuItemView.created_at v;
         MenuItemView.item_name := MenuItemView.item_name v;
         MenuItemView.producent := MenuItemView.producent v;
         MenuItemView.category := MenuItemView.category v;
         MenuItemView.subcategory := MenuItemView.subcategory v |}
  | None => v
  end.

(** An entry of the counting object holds a number from 1 up. *)
Definition counted_once (e : string * Obj.value) : Prop :=
  exists n, snd e = Obj.Num n /\ 1 <= n.

(** No character of a text is white space at its two ends. *)
Definition starts_clean (s : string) : Prop :=
  match s with
  | EmptyString => True
  | String c _ => Js.isWhiteSpace c = false
  end.

Fixpoint ends_clean (s : string) : Prop :=
  match s with
  | EmptyString => True
  | String c EmptyString => Js.isWhiteSpace c = false
  | String _ s' => ends_clean s'
  end.

End Spec.

(** ** More sample data *)

Module Demo.

Definition hashSync (password salt : string) : string :=
  Sample.hashOf password.

Definition carla : onboarding.body :=
  {| onboarding.manager_first_name := Some "Carla";
     onboarding.manager_last_name := Some "Smets";
     onboarding.horeca_name := Some "Chez Carla";
     onboarding.address := Some "Kerkstraat 1, 9000 Gent";
     onboarding.phonenumber := Some "0470000003";
     onboarding.email := Some "carla@chez.example";
     onboarding.password := Some "poppy" |}.

(** The sample store after business 2 changed its menu: item 7 has
    another product and price, item 8 is new and has a sale, a sale of
    item 7 is gone.  The rows of business 1 are as they were. *)
Definition other_menu : Db.t :=
  {| Db.business_info := Db.business_info Sample.db;
     Db.products := Db.products Sample.db;
     Db.menu_items :=
       [ Sample.item 5 1 11 300; Sample.item 8 2 12 500;
         Sample.item 3 1 10 250; Sample.item 7 2 11 999 ];
     Db.sales :=
       map Ref.sale_row
           [ (3, Sample.on 2025 1 1); (3, Sample.on 2025 12 31);
             (8, Sample.on 2025 5 5); (3, Sample.on 2024 6 15);
             (3, Sample.on 2026 1 1); (5, Sample.on 2025 7 1);
             (7, Sample.on 2024 12 31) ] |}.

(** The sample store with one more menu item of business 1, whose
    product row is missing. *)
Definition dangling : Db.t :=
  {| Db.business_info := Db.business_info Sample.db;
     Db.products := Db.products Sample.db;
     Db.menu_items := (Db.menu_items Sample.db ++ [Sample.item 6 1 99 100])%list;
     Db.sales := Db.sales Sample.db |}.

End Demo.

(* ================================================================= *)
(** * Part II: properties *)
(* ================================================================= *)

(** ** Runs on the sample store *)

Example menu_counts_of_anna :
  get_menu_counts Sample.ordinal Sample.nativeText no_fault Sample.db
                  Sample.as_anna
  = Reply 200
      (category_counts
         [ {| CategoryCount.category := "Drinks";
              CategoryCount.count_on_menu := Obj.Num 1 |};
           {| CategoryCount.category := "Food";
              CategoryCount.count_on_menu := Obj.Num 1 |} ]).
Proof. reflexivity. Qed.

Example not_on_menu_of_anna :
  exists flattened,
    get_items_not_on_menu Sample.ordinal no_fault Sample.db Sample.as_anna
    = Reply 200 (not_on_menu flattened)
    /\ map NotOnMenuView.name flattened = ["Apple pie"].
Proof. eexists. split; reflexivity. Qed.

Example in_list_operands :
  Client.parse_in_list "(10,11)" = Some [10; 11]
  /\ Client.parse_in_list "()" = Some []
  /\ Client.parse_in_list "(10,,11)" = None
  /\ "(" ++ Js.join "," (map Js.toString [11; 10]) ++ ")" = "(11,10)".
Proof. repeat split. Qed.

(** Array indices come first in [Object.entries], [__proto__] is never
    stored, and a method name of [Object.prototype] holds text. *)
Example entries_of_an_object :
  let o := fold_left (Obj.increment Sample.nativeText)
                     ["b"; "10"; "a"; "2"; "b"; "__proto__"; "toString"] [] in
  map fst (Obj.entries o) = ["2"; "10"; "b"; "a"; "toString"]
  /\ Obj.own o "b" = Some (Obj.Num 2)
  /\ Obj.own o "toString"
     = Some (Obj.Str "function toString() { [native code] }1").
Proof. repeat split. Qed.

Example login_of_anna :
  fst (login Sample.compareSync no_fault Sample.db None
             "anna@cafe.example" "tulip")
  = Reply 200 (logged_in 1 "Cafe Anna")
  /\ snd (login Sample.compareSync no_fault Sample.db None
               "anna@cafe.example" "tulip")
     = Sample.as_anna.
Proof. split; reflexivity. Qed.

(** ** Arrays: [sort] *)

Section SortFacts.

Context {A : Type} (cmp : A -> A -> Z).

Lemma insert_perm (x : A) (l : list A) :
  Permutation (Js.insert cmp x l) (x :: l).
Proof.
  induction l as [|y l IH]; simpl.
  - apply Permutation_refl.
  - destruct (cmp x y <=? 0).
    + apply Permutation_refl.
    + eapply perm_trans; [apply perm_skip, IH | apply perm_swap].
Qed.

Lemma sort_perm (l : list A) : Permutation (Js.sort cmp l) l.
Proof.
  induction l as [|x l IH]; simpl.
  - apply perm_nil.
  - eapply perm_trans; [apply insert_perm | apply perm_skip, IH].
Qed.

Hypothesis cmp_total : forall a b, cmp a b <= 0 \/ cmp b a <= 0.

Lemma insert_sorted (x : A) (l : list A) :
  Sorted (Js.before cmp) l -> Sorted (Js.before cmp) (Js.insert cmp x l).
Proof.
  induction l as [|y l IH]; simpl; intros Hs.
  - repeat constructor.
  - destruct (Z.leb_spec (cmp x y) 0) as [Hle|Hgt].
    + constructor; [assumption | constructor; assumption].
    + inversion Hs as [|? ? Hs' Hhd]; subst.
      constructor; [apply IH; assumption|].
      assert (Hyx : Js.before cmp y x) by (destruct (cmp_total x y); [lia | assumption]).
      destruct l as [|z l]; simpl.
      * constructor. exact Hyx.
      * destruct (cmp x z <=? 0); constructor.
        -- exact Hyx.
        -- inversion Hhd; assumption.
Qed.

Lemma sort_sorted (l : list A) : Sorted (Js.before cmp) (Js.sort cmp l).
Proof.
  induction l as [|x l IH]; simpl.
  - constructor.
  - apply insert_sorted, IH.
Qed.

Hypothesis cmp_trans :
  forall a b c, cmp a b <= 0 -> cmp b c <= 0 -> cmp a c <= 0.

Lemma sort_strongly_sorted (l : list A) : StronglySorted (Js.before cmp) (Js.sort cmp l).
Proof.
  apply Sorted_StronglySorted.
  - intros a b c; apply cmp_trans.
  - apply sort_sorted.
Qed.

End SortFacts.

(** Two sorted arrangements of the same elements are the same list,
    when no two distinct elements of it tie. *)
Lemma sorted_perm_unique {A : Type} (le : A -> A -> Prop) (l1 l2 : list A) :
  (forall a b, In a l1 -> In b l1 -> le a b -> le b a -> a = b) ->
  StronglySorted le l1 -> StronglySorted le l2 ->
  Permutation l1 l2 -> l1 = l2.
Proof.
  revert l2. induction l1 as [|a l1 IH]; intros l2 Hanti H1 H2 Hp.
  - apply Permutation_nil in Hp. subst. reflexivity.
  - destruct l2 as [|b l2].
    + apply Permutation_sym, Permutation_nil in Hp. discriminate.
    + inversion H1 as [|? ? H1' Ha]; subst.
      inversion H2 as [|? ? H2' Hb]; subst.
      assert (a = b) as ->.
      { assert (Hin_a : In a (b :: l2))
          by (eapply Permutation_in; [exact Hp | left; reflexivity]).
        assert (Hin_b : In b (a :: l1))
          by (eapply Permutation_in;
              [apply Permutation_sym; exact Hp | left; reflexivity]).
        destruct Hin_a as [->|Hin_a]; [reflexivity|].
        destruct Hin_b as [->|Hin_b]; [reflexivity|].
        apply Hanti.
        - left; reflexivity.
        - right; exact Hin_b.
        - rewrite Forall_forall in Ha. apply Ha, Hin_b.
        - rewrite Forall_forall in Hb. apply Hb, Hin_a. }
      f_equal. apply IH.
      * intros x y Hx Hy. apply Hanti; right; assumption.
      * assumption.
      * assumption.
      * eapply Permutation_cons_inv. exact Hp.
Qed.

(** ** Strings: [split] *)

Lemma split_not_nil (c : ascii) (s : string) : Js.split c s <> [].
Proof.
  destruct s as [|a s]; simpl.
  - discriminate.
  - destruct (Ascii.eqb a c); [discriminate|].
    destruct (Js.split c s); discriminate.
Qed.

Lemma split_without (c : ascii) (s : string) :
  Text.contains c s = false -> Js.split c s = [s].
Proof.
  induction s as [|a s IH]; simpl; intros H.
  - reflexivity.
  - apply orb_false_iff in H. destruct H as [Ha Hs].
    rewrite Ha, (IH Hs). reflexivity.
Qed.

Lemma split_at (c : ascii) (pre rest : string) :
  Js.split c (pre ++ String c rest) = (Js.split c pre ++ Js.split c rest)%list.
Proof.
  induction pre as [|a pre IH]; simpl.
  - rewrite Ascii.eqb_refl. reflexivity.
  - destruct (Ascii.eqb a c).
    + rewrite IH. reflexivity.
    + rewrite IH. destruct (Js.split c pre) as [|p ps] eqn:E.
      * exfalso. exact (split_not_nil _ _ E).
      * reflexivity.
Qed.

(** A text with the character in it breaks at the last occurrence. *)
Lemma last_occurrence (c : ascii) (s : string) :
  Text.contains c s = true ->
  exists pre last, s = pre ++ String c last /\ Text.contains c last = false.
Proof.
  induction s as [|a s IH]; simpl; intros H.
  - discriminate.
  - destruct (Text.contains c s) eqn:Hs.
    + destruct (IH eq_refl) as (pre & last & -> & Hl).
      exists (String a pre), last. split; [reflexivity | exact Hl].
    + rewrite orb_false_r in H. apply Ascii.eqb_eq in H. subst a.
      exists EmptyString, s. split; [reflexivity | exact Hs].
Qed.

Lemma splitAddress_some (address : string) :
  splitAddress (Some address) =
  (let parts := map Js.trim (Js.split "," address) in
   if 1 <? Z.of_nat (List.length parts)
   then nth (List.length parts - 1) parts EmptyString
   else EmptyString, EmptyString).
Proof. destruct address; reflexivity. Qed.

Lemma city_without_comma (address : string) :
  Text.contains "," address = false ->
  splitAddress (Some address) = (EmptyString, EmptyString).
Proof.
  intros H. rewrite splitAddress_some, (split_without _ _ H). reflexivity.
Qed.

Lemma city_after_last_comma (pre last : string) :
  Text.contains "," last = false ->
  splitAddress (Some (pre ++ String "," last)) = (Js.trim last, EmptyString).
Proof.
  intros H. rewrite splitAddress_some, split_at, (split_without _ _ H).
  cbv zeta. rewrite map_app, length_app. simpl List.length.
  destruct (map Js.trim (Js.split "," pre)) as [|p ps] eqn:E.
  - apply map_eq_nil in E. exfalso. exact (split_not_nil _ _ E).
  - replace (1 <? Z.of_nat (List.length (p :: ps) + 1)) with true
      by (symmetry; apply Z.ltb_lt; simpl List.length; lia).
    replace (List.length (p :: ps) + 1 - 1)%nat with (List.length (p :: ps)) by lia.
    rewrite app_nth2 by lia. rewrite Nat.sub_diag. reflexivity.
Qed.

(** C9. GET /api/business-info answers with the city and an empty
    country: the city is the trimmed text after the last comma of the
    address, and empty when the address has no comma (one component);
    an address with a comma always breaks at its last comma.  "Main St
    5, Springfield" gives Springfield, "NoCommaHere" gives the empty
    city. *)
Theorem business_info_city_country :
  forall (fault : faults) (db : Db.t) (user : session_user.t)
         (row : business_info.row) (address : string),
    fault 0%nat = None ->
    filter (fun b => business_info.id b =? session_user.id user)
           (Db.business_info db) = [row] ->
    business_info.address row = Some address ->
    (exists city,
        get_business_info fault db (Some user) = Reply 200 (city_country city "")
        /\ (Text.contains "," address = false -> city = "")
        /\ (forall pre last,
               address = pre ++ String "," last ->
               Text.contains "," last = false -> city = Js.trim last)
        /\ (Text.contains "," address = true ->
            exists pre last,
              address = pre ++ String "," last /\ Text.contains "," last = false))
    /\ splitAddress (Some "Main St 5, Springfield") = ("Springfield", "")
    /\ splitAddress (Some "NoCommaHere") = ("", "").
Proof.
  intros fault db user row address Hf Hrow Haddr.
  split; [| split; reflexivity].
  exists (fst (splitAddress (Some address))).
  split; [| split; [| split]].
  - unfold get_business_info. rewrite Hf, Hrow. simpl Client.single.
    cbv iota beta. rewrite Haddr.
    destruct (Text.contains "," address) eqn:Hc.
    + destruct (last_occurrence _ _ Hc) as (pre & last & -> & Hl).
      rewrite (city_after_last_comma _ _ Hl). reflexivity.
    + rewrite (city_without_comma _ Hc). reflexivity.
  - intros H. rewrite (city_without_comma _ H). reflexivity.
  - intros pre last -> H. rewrite (city_after_last_comma _ _ H). reflexivity.
  - apply last_occurrence.
Qed.

Lemma business_info_city_country_witness :
  get_business_info no_fault Sample.db Sample.as_anna
  = Reply 200 (city_country "Springfield" "").
Proof.
  destruct (business_info_city_country no_fault Sample.db Sample.anna_user
              Sample.anna "Main St 5, Springfield"
              eq_refl eq_refl eq_refl) as [(city & Hr & _ & Hc & _) _].
  rewrite (Hc "Main St 5" " Springfield" eq_refl eq_refl) in Hr.
  exact Hr.
Defined.

(** ** Flattening a joined row *)

(** C7. A menu item row whose product and category are there is
    flattened without an exception, by GET /api/menu-items and by
    GET /api/sales alike; its [subcategory] is the empty string when the
    product has no subcategory, and the subcategory's name when it has
    one. *)
Theorem null_subcategory_is_empty_string :
  forall (mi : joined.row) (prod : products.row) (cat : categories.row),
    joined.products mi = Some prod ->
    products.categories prod = Some cat ->
    exists (v : MenuItemView.t) (s : SalesStatView.t),
      shapeMenuItem mi = Some v /\ salesStat mi = Some s
      /\ (products.subcategories prod = None ->
          MenuItemView.subcategory v = "" /\ SalesStatView.subcategory s = "")
      /\ (forall sub,
             products.subcategories prod = Some sub ->
             MenuItemView.subcategory v = subcategories.subcat_name sub
             /\ SalesStatView.subcategory s = subcategories.subcat_name sub).
Proof.
  intros mi prod cat Hp Hc.
  unfold shapeMenuItem, salesStat. rewrite Hp, Hc.
  eexists; eexists. split; [reflexivity|]. split; [reflexivity|].
  simpl. split.
  - intros ->. split; reflexivity.
  - intros sub ->. split; reflexivity.
Qed.

Lemma null_subcategory_is_empty_string_witness :
  exists (v : MenuItemView.t) (s : SalesStatView.t),
    shapeMenuItem (Client.embed Sample.db (Sample.item 5 1 11 300)) = Some v
    /\ salesStat (Client.embed Sample.db (Sample.item 5 1 11 300)) = Some s
    /\ MenuItemView.subcategory v = "" /\ SalesStatView.subcategory s = "".
Proof.
  destruct (null_subcategory_is_empty_string
              (Client.embed Sample.db (Sample.item 5 1 11 300))
              Sample.bread Sample.food eq_refl eq_refl)
    as (v & s & Hv & Hs & Hnone & _).
  exists v, s. destruct (Hnone eq_refl) as [H1 H2].
  repeat split; assumption.
Defined.

(** ** Login *)

Section Login.

Variable compareSync : string -> string -> bool.


End Login.


(** ** Price updates *)

Lemma update_loop_prefix (fault : faults) (businessId : Z)
      (applied : list update.t) (tail : list (option update.t)) :
  forall (call : nat) (db : Db.t),
    (forall j, (j < List.length applied)%nat -> fault (call + j)%nat = None) ->
    update_loop fault call businessId (map Some applied ++ tail)%list db
    = update_loop fault (call + List.length applied) businessId tail
        (fold_left
           (fun db u => Client.update_price db (update.id_menu_item u)
                                            businessId (update.price u))
           applied db).
Proof.
  induction applied as [|u applied IH]; intros call db Hok; simpl.
  - rewrite Nat.add_0_r. reflexivity.
  - assert (H0 : fault call = None).
    { specialize (Hok 0%nat). rewrite Nat.add_0_r in Hok. apply Hok.
      simpl. lia. }
    rewrite H0, IH.
    + f_equal. lia.
    + intros j Hj. replace (S call + j)%nat with (call + S j)%nat by lia.
      apply Hok. simpl. lia.
Qed.

(** C5. PATCH /api/menu-items answers 400 and leaves the store alone
    when [updates] is no array.  On an array the updates are sent one
    after the other in the order of the array: when the call for an
    update fails after all the calls before it went through, the store
    holds the updates before it, applied in order, nothing is undone,
    and the answer is the one status 500 with the body
    [{ error: 'Failed updating prices' }], the same wherever the failure
    was.  When every call goes through, all updates are applied and the
    answer is [{ success: true }]. *)
Theorem patch_is_sequential_without_rollback :
  forall (fault : faults) (db : Db.t) (user : session_user.t)
         (applied : list update.t) (failing : update.t)
         (rest : list (option update.t)),
    let apply := fun db u =>
                   Client.update_price db (update.id_menu_item u)
                                       (session_user.id user) (update.price u) in
    patch_menu_items fault db (Some user) None
    = (Reply 400 (error_ "Invalid payload"), db)
    /\ ((forall j, (j < List.length applied)%nat -> fault j = None) ->
        fault (List.length applied) <> None ->
        patch_menu_items fault db (Some user)
                         (Some (map Some applied ++ Some failing :: rest)%list)
        = (Reply 500 (error_ "Failed updating prices"), fold_left apply applied db))
    /\ ((forall j, (j < List.length applied)%nat -> fault j = None) ->
        patch_menu_items fault db (Some user) (Some (map Some applied))
        = (Reply 200 success, fold_left apply applied db)).
Proof.
  intros fault db user applied failing rest apply.
  split; [reflexivity|]. split.
  - intros Hok Hfail. unfold patch_menu_items.
    rewrite (update_loop_prefix fault (session_user.id user) applied
               (Some failing :: rest) 0 db Hok).
    simpl. destruct (fault (List.length applied)) as [msg|].
    + reflexivity.
    + exfalso. apply Hfail. reflexivity.
  - intros Hok. unfold patch_menu_items.
    rewrite <- (app_nil_r (map Some applied)).
    rewrite (update_loop_prefix fault (session_user.id user) applied [] 0 db Hok).
    reflexivity.
Qed.

Lemma patch_is_sequential_without_rollback_witness :
  patch_menu_items Sample.second_call_fails Sample.db Sample.as_anna
    (Some [ Some {| update.id_menu_item := 5; update.price := 350 |};
            Some {| update.id_menu_item := 3; update.price := -1 |} ])
  = (Reply 500 (error_ "Failed updating prices"),
     Client.update_price Sample.db 5 1 350).
Proof.
  destruct (patch_is_sequential_without_rollback
              Sample.second_call_fails Sample.db Sample.anna_user
              [ {| update.id_menu_item := 5; update.price := 350 |} ]
              {| update.id_menu_item := 3; update.price := -1 |} [])
    as [_ [Hpartial _]].
  apply Hpartial.
  - intros j Hj. simpl in Hj. destruct j as [|j]; [reflexivity | lia].
  - discriminate.
Defined.

(** ** Tenant scoping *)

Lemma filter_none {A : Type} (f : A -> bool) (l : list A) :
  (forall x, In x l -> f x = false) -> filter f l = [].
Proof.
  induction l as [|x l IH]; simpl; intros H; [reflexivity|].
  rewrite (H x (or_introl eq_refl)). apply IH.
  intros y Hy. apply H. right. exact Hy.
Qed.

Lemma filter_all {A : Type} (f : A -> bool) (l : list A) :
  (forall x, In x l -> f x = true) -> filter f l = l.
Proof.
  induction l as [|x l IH]; simpl; intros H; [reflexivity|].
  rewrite (H x (or_introl eq_refl)). f_equal. apply IH.
  intros y Hy. apply H. right. exact Hy.
Qed.

(** What a request reads from [menu_items] belongs to the business of
    the session. *)
Lemma menu_items_of_owned (db : Db.t) (businessId : Z) (r : joined.row) :
  In r (Client.menu_items_of db businessId) ->
  exists mi, In mi (Db.menu_items db)
             /\ menu_items.business_id mi = businessId
             /\ r = Client.embed db mi.
Proof.
  unfold Client.menu_items_of. intros H.
  apply in_map_iff in H. destruct H as (mi & <- & Hin).
  apply filter_In in Hin. destruct Hin as [Hin Hb].
  apply Z.eqb_eq in Hb. exists mi. auto.
Qed.

(** A price update reaches no menu item of another business. *)
Lemma update_price_foreign (db : Db.t) (menuItemId businessId price : Z) :
  filter (fun mi => negb (menu_items.business_id mi =? businessId))
         (Db.menu_items (Client.update_price db menuItemId businessId price))
  = filter (fun mi => negb (menu_items.business_id mi =? businessId))
           (Db.menu_items db).
Proof.
  unfold Client.update_price. simpl.
  induction (Db.menu_items db) as [|mi l IH]; simpl.
  - reflexivity.
  - destruct (Client.matches menuItemId businessId mi) eqn:Hm.
    + apply andb_true_iff in Hm. destruct Hm as [_ Hb].
      simpl. rewrite Hb. simpl. exact IH.
    + destruct (negb (menu_items.business_id mi =? businessId));
        [f_equal|]; exact IH.
Qed.

Lemma patch_foreign (fault : faults) (db : Db.t) (user : session_user.t)
      (updates : option (list (option update.t))) :
  filter (fun mi => negb (menu_items.business_id mi =? session_user.id user))
         (Db.menu_items (snd (patch_menu_items fault db (Some user) updates)))
  = filter (fun mi => negb (menu_items.business_id mi =? session_user.id user))
           (Db.menu_items db).
Proof.
  unfold patch_menu_items. destruct updates as [updates|]; [|reflexivity].
  generalize 0%nat. revert db.
  induction updates as [|[u|] updates IH]; intros db call; simpl;
    try reflexivity.
  destruct (fault call); [reflexivity|].
  rewrite IH. apply update_price_foreign.
Qed.

(** DELETE removes no menu item of another business ... *)
Lemma delete_foreign_items (fault : faults) (db : Db.t) (user : session_user.t)
      (id : Z) :
  filter (fun mi => negb (menu_items.business_id mi =? session_user.id user))
         (Db.menu_items (snd (delete_menu_item fault db (Some user) id)))
  = filter (fun mi => negb (menu_items.business_id mi =? session_user.id user))
           (Db.menu_items db).
Proof.
  unfold delete_menu_item.
  destruct (fault 0%nat); [reflexivity|].
  destruct (fault 1%nat); [reflexivity|].
  assert (H : filter (fun mi => negb (menu_items.business_id mi =? session_user.id user))
                (filter (fun mi => negb (Client.matches id (session_user.id user) mi))
                        (Db.menu_items db))
              = filter (fun mi => negb (menu_items.business_id mi =? session_user.id user))
                       (Db.menu_items db)).
  { induction (Db.menu_items db) as [|mi l IH]; simpl; [reflexivity|].
    destruct (Client.matches id (session_user.id user) mi) eqn:Hm; simpl.
    - apply andb_true_iff in Hm. destruct Hm as [_ Hb].
      rewrite Hb. simpl. exact IH.
    - destruct (negb (menu_items.business_id mi =? session_user.id user));
        [f_equal|]; exact IH. }
  simpl. destruct (Nat.eqb _ 0); simpl; exact H.
Qed.

(** ... but once its first store call went through, no sale of the
    menu item named in the path is left, whoever owns that item: the
    sales are deleted by [menu_item_id] alone, before the ownership of
    the item is looked at. *)
Lemma delete_drops_sales_unscoped (fault : faults) (db : Db.t)
      (user : session_user.t) (id : Z) :
  fault 0%nat = None ->
  Db.sales (snd (delete_menu_item fault db (Some user) id))
  = filter (fun s => negb (sales.menu_item_id s =? id)) (Db.sales db).
Proof.
  intros Hf. unfold delete_menu_item. rewrite Hf.
  destruct (fault 1%nat); [reflexivity|].
  simpl. destruct (Nat.eqb _ 0); reflexivity.
Qed.

(** When the item is absent or belongs to someone else and both store
    calls go through, the answer is 404 and [menu_items] is as before. *)
Lemma delete_not_owned (db : Db.t) (user : session_user.t) (id : Z) :
  (forall mi, In mi (Db.menu_items db) ->
              Client.matches id (session_user.id user) mi = false) ->
  fst (delete_menu_item no_fault db (Some user) id)
  = Reply 404 (error_ "Item not found or no rights")
  /\ Db.menu_items (snd (delete_menu_item no_fault db (Some user) id))
     = Db.menu_items db.
Proof.
  intros Hnone. unfold delete_menu_item. simpl.
  rewrite (filter_none _ _ Hnone). simpl. split; [reflexivity|].
  apply filter_all. intros mi Hin. rewrite (Hnone mi Hin). reflexivity.
Qed.

(** C2. Business 1 asks to delete menu item 7, which belongs to
    business 2.  The answer is 404, the menu item row stays, and the two
    sales of item 7 are gone from the store. *)
Theorem delete_of_foreign_item_changes_store :
  fst (delete_menu_item no_fault Sample.db Sample.as_anna 7)
  = Reply 404 (error_ "Item not found or no rights")
  /\ Db.menu_items (snd (delete_menu_item no_fault Sample.db Sample.as_anna 7))
     = Db.menu_items Sample.db
  /\ filter (fun s => sales.menu_item_id s =? 7) (Db.sales Sample.db)
     = [ {| sales.menu_item_id := 7; sales.sold_at := "2025-03-03" |};
         {| sales.menu_item_id := 7; sales.sold_at := "2024-12-31" |} ]
  /\ filter (fun s => sales.menu_item_id s =? 7)
            (Db.sales (snd (delete_menu_item no_fault Sample.db Sample.as_anna 7)))
     = []
  /\ snd (delete_menu_item no_fault Sample.db Sample.as_anna 7) <> Sample.db.
Proof.
  repeat split; try reflexivity.
  intros H. apply (f_equal (fun d => List.length (Db.sales d))) in H.
  vm_compute in H. discriminate.
Qed.

(** C1. A request of business 1 deletes a sale of business 2: the sale
    of 2025-03-03 hangs under menu item 7, which business 2 owns; it is
    in the store before business 1 sends DELETE /api/menu-items/7 and
    not after. *)
Theorem delete_crosses_tenants :
  let sale := {| sales.menu_item_id := 7; sales.sold_at := "2025-03-03" |} in
  let owner := Sample.item 7 2 10 275 in
  Sample.as_anna = Some Sample.anna_user
  /\ In owner (Db.menu_items Sample.db)
  /\ menu_items.business_id owner <> session_user.id Sample.anna_user
  /\ sales.menu_item_id sale = menu_items.id_menu_item owner
  /\ In sale (Db.sales Sample.db)
  /\ ~ In sale (Db.sales (snd (delete_menu_item no_fault Sample.db Sample.as_anna 7))).
Proof.
  cbv zeta. split; [reflexivity|]. split; [simpl; tauto|].
  split; [discriminate|]. split; [reflexivity|]. split.
  - vm_compute. tauto.
  - unfold Sample.as_anna.
    rewrite delete_drops_sales_unscoped by reflexivity.
    intros H. apply filter_In in H. destruct H as [_ H]. discriminate H.
Qed.

(** ** Dates as text *)

Lemma N_dchar (n : Z) : 0 <= n < 10 -> N_of_ascii (Ref.dchar n) = Z.to_N (48 + n).
Proof.
  intros H. unfold Ref.dchar. apply N_ascii_embedding. lia.
Qed.

Lemma cmp_dchar (i j : Z) :
  0 <= i < 10 -> 0 <= j < 10 ->
  Ascii.compare (Ref.dchar i) (Ref.dchar j) = (i ?= j).
Proof.
  intros Hi Hj. unfold Ascii.compare. rewrite !N_dchar by assumption.
  rewrite Z2N.inj_compare by lia.
  apply Z.add_compare_mono_l.
Qed.

Ltac by_digits := Z.div_mod_to_equations; lia.

Lemma cmp_pad2 (m n : Z) (r s : string) :
  0 <= m < 100 -> 0 <= n < 100 ->
  String.compare (Ref.pad2 m r) (Ref.pad2 n s)
  = match m ?= n with Eq => String.compare r s | c => c end.
Proof.
  intros Hm Hn. unfold Ref.pad2. cbn [String.compare].
  rewrite !cmp_dchar by by_digits.
  destruct (Z.compare_spec (m / 10) (n / 10));
    destruct (Z.compare_spec (m mod 10) (n mod 10));
    destruct (Z.compare_spec m n); try reflexivity; exfalso; by_digits.
Qed.

Lemma pad4_as_pad2 (n : Z) (r : string) :
  Ref.pad4 n r = Ref.pad2 (n / 100) (Ref.pad2 (n mod 100) r).
Proof.
  unfold Ref.pad4, Ref.pad2 at 2.
  rewrite Z.div_div by lia. reflexivity.
Qed.

Lemma cmp_pad4 (m n : Z) (r s : string) :
  0 <= m < 10000 -> 0 <= n < 10000 ->
  String.compare (Ref.pad4 m r) (Ref.pad4 n s)
  = match m ?= n with Eq => String.compare r s | c => c end.
Proof.
  intros Hm Hn. rewrite !pad4_as_pad2.
  rewrite cmp_pad2 by by_digits.
  rewrite cmp_pad2 by by_digits.
  destruct (Z.compare_spec (m / 100) (n / 100));
    destruct (Z.compare_spec (m mod 100) (n mod 100));
    destruct (Z.compare_spec m n); try reflexivity; exfalso; by_digits.
Qed.

(** On the text of two valid dates the order of strings is the order of
    the calendar. *)
Lemma leb_iso (a b : Ref.date) :
  Ref.valid a -> Ref.valid b ->
  String.leb (Ref.iso a) (Ref.iso b) = Ref.date_leb a b.
Proof.
  intros (Ha1 & Ha2 & Ha3) (Hb1 & Hb2 & Hb3).
  unfold String.leb, Ref.iso, Ref.date_leb.
  rewrite cmp_pad4 by lia. cbn [String.compare].
  change (Ascii.compare "-" "-") with Eq. cbv iota.
  rewrite cmp_pad2 by lia. cbn [String.compare].
  change (Ascii.compare "-" "-") with Eq. cbv iota.
  rewrite cmp_pad2 by lia. cbn [String.compare].
  destruct (Z.compare_spec (Ref.year a) (Ref.year b));
    destruct (Z.compare_spec (Ref.month a) (Ref.month b));
    destruct (Z.compare_spec (Ref.day a) (Ref.day b));
    repeat match goal with
      | |- context [?x <? ?y] => destruct (Z.ltb_spec x y)
      | |- context [?x =? ?y] => destruct (Z.eqb_spec x y)
      | |- context [?x <=? ?y] => destruct (Z.leb_spec x y)
      end; cbn; try reflexivity; try lia.
Qed.

(** The filter of the handlers, between the texts of the first and the
    last day of a year, is the window of that year. *)
Lemma in_window_iso (y : Z) (e : Ref.event) :
  0 <= y <= 9999 -> Ref.valid (snd e) ->
  in_window (Ref.iso {| Ref.year := y; Ref.month := 1; Ref.day := 1 |})
            (Ref.iso {| Ref.year := y; Ref.month := 12; Ref.day := 31 |})
            (Ref.sale_row e)
  = Ref.in_year_window y (snd e).
Proof.
  intros Hy Hv. unfold in_window, Js.str_ge, Js.str_le, Ref.in_year_window.
  simpl sales.sold_at.
  rewrite !leb_iso; try assumption; try reflexivity;
    unfold Ref.valid; simpl; lia.
Qed.

Lemma embedded_window_count (y : Z) (events : list Ref.event) (menuItem : Z) :
  0 <= y <= 9999 ->
  (forall e, In e events -> Ref.valid (snd e)) ->
  List.length
    (filter (in_window (Ref.iso {| Ref.year := y; Ref.month := 1; Ref.day := 1 |})
                       (Ref.iso {| Ref.year := y; Ref.month := 12; Ref.day := 31 |}))
            (filter (fun s => sales.menu_item_id s =? menuItem)
                    (map Ref.sale_row events)))
  = Ref.window_count events menuItem y.
Proof.
  intros Hy. unfold Ref.window_count.
  induction events as [|e events IH]; intros Hv; simpl; [reflexivity|].
  assert (IH' := IH (fun e' H => Hv e' (or_intror H))).
  destruct (fst e =? menuItem); simpl.
  - rewrite (in_window_iso y e Hy (Hv e (or_introl eq_refl))).
    destruct (Ref.in_year_window y (snd e)); simpl; rewrite IH'; reflexivity.
  - exact IH'.
Qed.

(** ** Mapping a callback that may throw *)

Lemma traverse_Forall2 {A B : Type} (f : A -> option B) (R : A -> B -> Prop)
      (xs : list A) :
  (forall x, In x xs -> exists y, f x = Some y /\ R x y) ->
  exists ys, Js.traverse f xs = Some ys /\ Forall2 R xs ys.
Proof.
  induction xs as [|x xs IH]; intros H; simpl.
  - exists []. split; [reflexivity | constructor].
  - destruct (H x (or_introl eq_refl)) as (y & Hy & HR).
    destruct (IH (fun x' Hx' => H x' (or_intror Hx'))) as (ys & Hys & HF).
    exists (y :: ys). rewrite Hy, Hys. split; [reflexivity|].
    constructor; assumption.
Qed.

Lemma Forall2_weaken {A B : Type} (R S : A -> B -> Prop) (xs : list A) (ys : list B) :
  (forall x y, In x xs -> R x y -> S x y) -> Forall2 R xs ys -> Forall2 S xs ys.
Proof.
  intros H HF. induction HF; constructor.
  - apply H; [left; reflexivity | assumption].
  - apply IHHF. intros a b Ha. apply H. right. exact Ha.
Qed.

Lemma Forall2_map_inv {A B C : Type} (g : A -> B) (R : B -> C -> Prop)
      (xs : list A) :
  forall ys, Forall2 R (map g xs) ys -> Forall2 (fun x y => R (g x) y) xs ys.
Proof.
  induction xs as [|x xs IH]; intros ys H; inversion H; subst; constructor.
  - assumption.
  - apply IH. assumption.
Qed.

(** ** Sales statistics *)

Lemma has_categories_inv (r : joined.row) :
  Client.has_categories r = true ->
  exists prod cat, joined.products r = Some prod
                   /\ products.categories prod = Some cat.
Proof.
  unfold Client.has_categories.
  destruct (joined.products r) as [prod|]; [|discriminate].
  destruct (products.categories prod) as [cat|] eqn:Hc; [|discriminate].
  intros _. exists prod, cat. split; [reflexivity | exact Hc].
Qed.

Lemma has_categories_products (r : joined.row) :
  Client.has_categories r = true -> Client.has_products r = true.
Proof.
  unfold Client.has_categories, Client.has_products.
  destruct (joined.products r); [reflexivity | discriminate].
Qed.

(** C6. GET /api/sales gives one statistic per menu item of the
    session's business, in table order.  With the sales of the store
    dated by valid calendar days, [total_sold] is the number of the
    item's sales from 2025-01-01 to 2025-12-31 and [last_year_sold] the
    number from 2024-01-01 to 2024-12-31, both ends included; the two
    years are written in the handler, which reads no clock.  A sale of
    2025-01-01 and a sale of 2025-12-31 pass the filter of
    [total_sold]. *)
Theorem sales_counts_fixed_years :
  forall (fault : faults) (db : Db.t) (user : session_user.t)
         (events : list Ref.event),
    fault 0%nat = None ->
    Db.sales db = map Ref.sale_row events ->
    (forall e, In e events -> Ref.valid (snd e)) ->
    (forall mi, In mi (Db.menu_items db) ->
                menu_items.business_id mi = session_user.id user ->
                Client.has_categories (Client.embed db mi) = true) ->
    (exists stats,
        get_sales fault db (Some user) = Reply 200 (sales_stats stats)
        /\ Forall2
             (fun mi v =>
                SalesStatView.id_menu_item v = menu_items.id_menu_item mi
                /\ SalesStatView.total_sold v
                   = Ref.window_count events (menu_items.id_menu_item mi) 2025
                /\ SalesStatView.last_year_sold v
                   = Ref.window_count events (menu_items.id_menu_item mi) 2024)
             (filter (fun mi => menu_items.business_id mi =? session_user.id user)
                     (Db.menu_items db))
             stats)
    /\ (forall i,
           in_window "2025-01-01" "2025-12-31"
                     {| sales.menu_item_id := i; sales.sold_at := "2025-01-01" |}
           = true
           /\ in_window "2025-01-01" "2025-12-31"
                        {| sales.menu_item_id := i; sales.sold_at := "2025-12-31" |}
              = true).
Proof.
  intros fault db user events Hf Hsales Hvalid Hfk.
  split; [| intros i; split; reflexivity].
  unfold get_sales. rewrite Hf.
  set (owned := filter (fun mi => menu_items.business_id mi =? session_user.id user)
                       (Db.menu_items db)).
  assert (Howned : forall mi, In mi owned ->
                     Client.has_categories (Client.embed db mi) = true).
  { intros mi Hin. apply filter_In in Hin. destruct Hin as [Hin Hb].
    apply Hfk; [exact Hin | apply Z.eqb_eq; exact Hb]. }
  assert (Hrows : Client.menu_items_inner db (session_user.id user)
                  = map (Client.embed db) owned).
  { unfold Client.menu_items_inner, Client.menu_items_of. fold owned.
    apply filter_all. intros r Hr. apply in_map_iff in Hr.
    destruct Hr as (mi & <- & Hin).
    rewrite (Howned mi Hin), (has_categories_products _ (Howned mi Hin)).
    reflexivity. }
  rewrite Hrows.
  destruct (traverse_Forall2 salesStat
              (fun r v =>
                 SalesStatView.id_menu_item v = joined.id_menu_item r
                 /\ SalesStatView.total_sold v
                    = List.length (filter (in_window "2025-01-01" "2025-12-31")
                                          (joined.sales r))
                 /\ SalesStatView.last_year_sold v
                    = List.length (filter (in_window "2024-01-01" "2024-12-31")
                                          (joined.sales r)))
              (map (Client.embed db) owned)) as (stats & Hstats & HF).
  { intros r Hr. apply in_map_iff in Hr. destruct Hr as (mi & <- & Hin).
    destruct (has_categories_inv _ (Howned mi Hin)) as (prod & cat & Hp & Hc).
    unfold salesStat. rewrite Hp, Hc. eexists. split; [reflexivity|].
    simpl. repeat split. }
  exists stats. rewrite Hstats. split; [reflexivity|].
  apply Forall2_map_inv in HF.
  revert HF. apply Forall2_weaken. intros mi v _ (Hid & Ht & Hl).
  split; [exact Hid|].
  simpl joined.sales in Ht, Hl. rewrite Hsales in Ht, Hl.
  change "2025-01-01"
    with (Ref.iso {| Ref.year := 2025; Ref.month := 1; Ref.day := 1 |}) in Ht.
  change "2025-12-31"
    with (Ref.iso {| Ref.year := 2025; Ref.month := 12; Ref.day := 31 |}) in Ht.
  change "2024-01-01"
    with (Ref.iso {| Ref.year := 2024; Ref.month := 1; Ref.day := 1 |}) in Hl.
  change "2024-12-31"
    with (Ref.iso {| Ref.year := 2024; Ref.month := 12; Ref.day := 31 |}) in Hl.
  rewrite embedded_window_count in Ht by (try lia; exact Hvalid).
  rewrite embedded_window_count in Hl by (try lia; exact Hvalid).
  split; assumption.
Qed.

Lemma sales_counts_fixed_years_witness :
  exists stats,
    get_sales no_fault Sample.db Sample.as_anna = Reply 200 (sales_stats stats)
    /\ Forall2
         (fun mi v =>
            SalesStatView.id_menu_item v = menu_items.id_menu_item mi
            /\ SalesStatView.total_sold v
               = Ref.window_count Sample.events (menu_items.id_menu_item mi) 2025
            /\ SalesStatView.last_year_sold v
               = Ref.window_count Sample.events (menu_items.id_menu_item mi) 2024)
         [Sample.item 5 1 11 300; Sample.item 3 1 10 250] stats.
Proof.
  assert (Hvalid : forall e, In e Sample.events -> Ref.valid (snd e)).
  { intros e He. simpl in He.
    repeat (destruct He as [<-|He]; [unfold Ref.valid; simpl; lia|]).
    destruct He. }
  assert (Hfk : forall mi, In mi (Db.menu_items Sample.db) ->
                  menu_items.business_id mi = session_user.id Sample.anna_user ->
                  Client.has_categories (Client.embed Sample.db mi) = true).
  { intros mi Hin _. simpl in Hin.
    repeat (destruct Hin as [<-|Hin]; [reflexivity|]). destruct Hin. }
  destruct (sales_counts_fixed_years no_fault Sample.db Sample.anna_user
              Sample.events eq_refl eq_refl Hvalid Hfk) as [Hstats _].
  exact Hstats.
Defined.

(** ** Sales of the previous year *)

(** The text of a year of four digits is the year part of a date. *)
Lemma toString_four_digits (y : Z) :
  1000 <= y <= 9999 -> Js.toString y = Ref.pad4 y EmptyString.
Proof.
  intros Hy.
  assert (Hall : forallb (fun k => String.eqb (Js.toString (1000 + Z.of_nat k))
                                      (Ref.pad4 (1000 + Z.of_nat k) EmptyString))
                         (seq 0 (Z.to_nat 9000)) = true)
    by (vm_compute; reflexivity).
  rewrite forallb_forall in Hall.
  specialize (Hall (Z.to_nat (y - 1000))).
  rewrite Z2Nat.id in Hall by lia.
  replace (1000 + (y - 1000)) with y in Hall by lia.
  apply String.eqb_eq, Hall. apply in_seq. lia.
Qed.

Lemma year_text (y m d : Z) (tail : string) :
  1000 <= y <= 9999 ->
  tail = Ref.pad2 m (String "-" (Ref.pad2 d EmptyString)) ->
  Js.toString y ++ String "-" tail
  = Ref.iso {| Ref.year := y; Ref.month := m; Ref.day := d |}.
Proof.
  intros Hy ->. rewrite (toString_four_digits y Hy). reflexivity.
Qed.

(** A callback that agrees on two arrays gives the same result on
    both. *)
Lemma traverse_filter_map_ext {A B C : Type} (f : B -> option C) (p : B -> bool)
      (g g' : A -> B) (xs : list A) :
  (forall x, In x xs -> p (g x) = p (g' x) /\ f (g x) = f (g' x)) ->
  Js.traverse f (filter p (map g xs)) = Js.traverse f (filter p (map g' xs)).
Proof.
  induction xs as [|x xs IH]; intros H; simpl; [reflexivity|].
  destruct (H x (or_introl eq_refl)) as [Hp Hf].
  rewrite <- Hp. destruct (p (g x)); simpl.
  - rewrite <- Hf, IH; [reflexivity|]. intros x' Hx'. apply H. right. exact Hx'.
  - apply IH. intros x' Hx'. apply H. right. exact Hx'.
Qed.

Lemma filter_swap {A : Type} (f g : A -> bool) (l : list A) :
  filter f (filter g l) = filter g (filter f l).
Proof.
  induction l as [|x l IH]; simpl; [reflexivity|].
  destruct (f x) eqn:Hf, (g x) eqn:Hg; simpl; rewrite ?Hf, ?Hg, IH; reflexivity.
Qed.

Lemma filter_twice {A : Type} (f : A -> bool) (l : list A) :
  filter f (filter f l) = filter f l.
Proof.
  induction l as [|x l IH]; simpl; [reflexivity|].
  destruct (f x) eqn:Hf; simpl; rewrite ?Hf, IH; reflexivity.
Qed.

(** The tables of [db] with the sales that pass a filter only. *)
Lemma last_year_reads_window_only (now_year : Z) (fault : faults)
      (db db' : Db.t) (sess : session) :
  Db.menu_items db' = Db.menu_items db ->
  Db.products db' = Db.products db ->
  Db.sales db'
  = filter (in_window (Js.toString (now_year - 1) ++ "-01-01")
                      (Js.toString (now_year - 1) ++ "-12-31"))
           (Db.sales db) ->
  get_sales_last_year now_year fault db' sess
  = get_sales_last_year now_year fault db sess.
Proof.
  intros Hmi Hp Hs. unfold get_sales_last_year.
  destruct sess as [user|]; [|reflexivity].
  destruct (fault 0%nat); [reflexivity|].
  unfold Client.menu_items_inner_sub, Client.menu_items_of. rewrite Hmi.
  rewrite (traverse_filter_map_ext _ _ (Client.embed db') (Client.embed db));
    [reflexivity|].
  intros mi _.
  unfold Client.has_products, Client.has_categories, Client.has_subcategories,
    lastYearStat, Client.embed. simpl. rewrite Hp, Hs.
  split; [reflexivity|].
  rewrite (filter_swap _ (in_window _ _)), filter_twice. reflexivity.
Qed.

Lemma Sorted_weaken {A : Type} (R S : A -> A -> Prop) (l : list A) :
  (forall a b, R a b -> S a b) -> Sorted R l -> Sorted S l.
Proof.
  intros H. induction 1 as [|a l Hs IH Hhd]; constructor.
  - exact IH.
  - destruct Hhd; constructor. apply H. assumption.
Qed.

Lemma inner_sub_inv (db : Db.t) (businessId : Z) (r : joined.row) :
  In r (Client.menu_items_inner_sub db businessId) ->
  exists mi prod cat,
    In mi (Db.menu_items db)
    /\ menu_items.business_id mi = businessId
    /\ r = Client.embed db mi
    /\ joined.products r = Some prod
    /\ products.categories prod = Some cat
    /\ products.subcategories prod <> None.
Proof.
  unfold Client.menu_items_inner_sub. intros H.
  apply filter_In in H. destruct H as [Hin Hb].
  apply andb_true_iff in Hb. destruct Hb as [Hb Hsub].
  apply andb_true_iff in Hb. destruct Hb as [_ Hcat].
  destruct (menu_items_of_owned _ _ _ Hin) as (mi & Hmi & Hown & Hr).
  destruct (has_categories_inv _ Hcat) as (prod & cat & Hp & Hc).
  exists mi, prod, cat. repeat split; try assumption.
  unfold Client.has_subcategories in Hsub. rewrite Hp in Hsub.
  destruct (products.subcategories prod); [discriminate | discriminate Hsub].
Qed.



Lemma sample_events_incl : incl Sample.events_without_2024 Sample.events.
Proof.
  intros e He. unfold Sample.events_without_2024 in He. unfold Sample.events.
  simpl in He |- *. tauto.
Qed.


(** ** Products not on the menu *)

Lemma Sorted_Forall2 {A B : Type} (R : A -> A -> Prop) (S : B -> B -> Prop)
      (Q : A -> B -> Prop) (xs : list A) (ys : list B) :
  (forall x x' y y', Q x y -> Q x' y' -> R x x' -> S y y') ->
  Forall2 Q xs ys -> Sorted R xs -> Sorted S ys.
Proof.
  intros H HF. induction HF as [|x y xs ys Hxy HF IH]; intros Hs.
  - constructor.
  - inversion Hs as [|? ? Hs' Hhd]; subst. constructor.
    + apply IH. exact Hs'.
    + destruct HF as [|x' y' xs' ys' Hxy' HF']; constructor.
      inversion Hhd; subst. eapply H; eassumption.
Qed.

Section NotOnMenu.

Variable collate : string -> string -> Z.
Hypothesis collate_total : forall a b, collate a b <= 0 \/ collate b a <= 0.

(** C4. For a business without any menu item, and a catalog whose
    products all have their category, GET /api/items-not-on-menu
    answers 200 with the whole catalog: the views are those of a
    rearrangement of the products table, field by field, in ascending
    order of the name.  The operand built from the empty list of taken
    identifiers is [()], which the store reads as the empty list: it
    excludes nothing and is no error. *)
Theorem empty_menu_lists_whole_catalog :
  forall (fault : faults) (db : Db.t) (user : session_user.t),
    fault 0%nat = None ->
    fault 1%nat = None ->
    (forall mi, In mi (Db.menu_items db) ->
                menu_items.business_id mi <> session_user.id user) ->
    (forall p, In p (Db.products db) -> products.categories p <> None) ->
    exists ps flattened,
      get_items_not_on_menu collate fault db (Some user)
      = Reply 200 (not_on_menu flattened)
      /\ Permutation (Db.products db) ps
      /\ Forall2
           (fun p v =>
              NotOnMenuView.id v = products.id_product p
              /\ NotOnMenuView.name v = products.name p
              /\ NotOnMenuView.brand v = products.brand p
              /\ Some {| categories.category_name := NotOnMenuView.category v |}
                 = products.categories p
              /\ NotOnMenuView.prodCity v = products.production_city p
              /\ NotOnMenuView.prodCountry v = products.production_country p
              /\ NotOnMenuView.is_trending v = products.is_trending p
              /\ NotOnMenuView.is_high_margin v = products.is_high_margin p
              /\ NotOnMenuView.eco_friendly v = products.eco_friendly p
              /\ NotOnMenuView.season v = products.season p)
           ps flattened
      /\ Sorted (fun a b => collate (NotOnMenuView.name a) (NotOnMenuView.name b) <= 0)
                flattened
      /\ Client.parse_in_list ("(" ++ Js.join "," (map Js.toString []) ++ ")")
         = Some [].
Proof.
  intros fault db user Hf0 Hf1 Hnone Hcat.
  unfold get_items_not_on_menu. rewrite Hf0, Hf1.
  rewrite (filter_none (fun mi => menu_items.business_id mi =? session_user.id user)
                       (Db.menu_items db))
    by (intros mi Hin; apply Z.eqb_neq, Hnone, Hin).
  cbv zeta. simpl map. simpl Js.join. simpl append.
  unfold products_not_in. simpl Client.parse_in_list. cbv iota beta.
  rewrite (filter_all _ (Db.products db)).
  2:{ intros p Hp. specialize (Hcat p Hp).
      destruct (products.categories p); [reflexivity | contradiction]. }
  set (ps := Js.sort (fun p q => collate (products.name p) (products.name q))
                     (Db.products db)).
  assert (Hperm : Permutation (Db.products db) ps)
    by (apply Permutation_sym, sort_perm).
  destruct (traverse_Forall2 flattenProduct
              (fun p v =>
                 NotOnMenuView.id v = products.id_product p
                 /\ NotOnMenuView.name v = products.name p
                 /\ NotOnMenuView.brand v = products.brand p
                 /\ Some {| categories.category_name := NotOnMenuView.category v |}
                    = products.categories p
                 /\ NotOnMenuView.prodCity v = products.production_city p
                 /\ NotOnMenuView.prodCountry v = products.production_country p
                 /\ NotOnMenuView.is_trending v = products.is_trending p
                 /\ NotOnMenuView.is_high_margin v = products.is_high_margin p
                 /\ NotOnMenuView.eco_friendly v = products.eco_friendly p
                 /\ NotOnMenuView.season v = products.season p)
              ps) as (flattened & Hfl & HF).
  { intros p Hp.
    assert (Hin : In p (Db.products db))
      by (eapply Permutation_in; [apply Permutation_sym; exact Hperm | exact Hp]).
    specialize (Hcat p Hin). unfold flattenProduct.
    destruct (products.categories p) as [[cat]|]; [|contradiction].
    eexists. split; [reflexivity|]. simpl. repeat split. }
  exists ps, flattened. rewrite Hfl.
  split; [reflexivity|]. split; [exact Hperm|]. split; [exact HF|].
  split; [|reflexivity].
  assert (Hsorted : Sorted (Js.before (fun p q => collate (products.name p)
                                                     (products.name q))) ps).
  { apply sort_sorted. intros p q. apply collate_total. }
  revert Hsorted. apply Sorted_Forall2 with (2 := HF).
  intros p q v w (_ & Hv & _) (_ & Hw & _). unfold Js.before.
  rewrite Hv, Hw. exact (fun H => H).
Qed.

End NotOnMenu.

(** The comparison of the sample runs is a total order on strings. *)
Lemma ordinal_le (a b : string) :
  Sample.ordinal a b <= 0 <-> String.compare a b <> Gt.
Proof.
  unfold Sample.ordinal. destruct (String.compare a b); split; intros H;
    try lia; try discriminate; exfalso; apply H; reflexivity.
Qed.

Lemma ordinal_total (a b : string) :
  Sample.ordinal a b <= 0 \/ Sample.ordinal b a <= 0.
Proof.
  rewrite !ordinal_le, (String.compare_antisym a b).
  destruct (String.compare b a); simpl; [left | right | left]; discriminate.
Qed.

Lemma ordinal_antisym (a b : string) :
  Sample.ordinal a b <= 0 -> Sample.ordinal b a <= 0 -> a = b.
Proof.
  rewrite !ordinal_le, (String.compare_antisym a b).
  destruct (String.compare b a) eqn:E; simpl; intros H1 H2.
  - symmetry. apply String.compare_eq_iff. exact E.
  - exfalso. apply H1. reflexivity.
  - exfalso. apply H2. reflexivity.
Qed.

Lemma ascii_compare_N (a b : ascii) :
  Ascii.compare a b = N.compare (N_of_ascii a) (N_of_ascii b).
Proof. reflexivity. Qed.

Lemma string_compare_trans (a : string) :
  forall b c, String.compare a b <> Gt -> String.compare b c <> Gt ->
              String.compare a c <> Gt.
Proof.
  induction a as [|x a IH]; intros [|y b] [|z c]; simpl;
    try discriminate; try (intros H; exfalso; apply H; reflexivity);
    try (intros _ H; exfalso; apply H; reflexivity).
  rewrite !ascii_compare_N.
  destruct (N.compare_spec (N_of_ascii x) (N_of_ascii y)) as [Exy|Lxy|Gxy];
    destruct (N.compare_spec (N_of_ascii y) (N_of_ascii z)) as [Eyz|Lyz|Gyz];
    destruct (N.compare_spec (N_of_ascii x) (N_of_ascii z)) as [Exz|Lxz|Gxz];
    intros H1 H2; try discriminate; try lia;
    try (exfalso; apply H1; reflexivity);
    try (exfalso; apply H2; reflexivity).
  eapply IH; eassumption.
Qed.

Lemma ordinal_trans (a b c : string) :
  Sample.ordinal a b <= 0 -> Sample.ordinal b c <= 0 -> Sample.ordinal a c <= 0.
Proof. rewrite !ordinal_le. apply string_compare_trans. Qed.

Lemma empty_menu_lists_whole_catalog_witness :
  exists ps flattened,
    get_items_not_on_menu Sample.ordinal no_fault Sample.db Sample.as_newcomer
    = Reply 200 (not_on_menu flattened)
    /\ Permutation [Sample.cola; Sample.bread; Sample.pie] ps
    /\ map NotOnMenuView.name flattened = map products.name ps.
Proof.
  assert (Hnone : forall mi, In mi (Db.menu_items Sample.db) ->
                    menu_items.business_id mi <> session_user.id Sample.newcomer).
  { intros mi Hin. simpl in Hin.
    repeat (destruct Hin as [<-|Hin]; [discriminate|]). destruct Hin. }
  assert (Hcat : forall p, In p (Db.products Sample.db) ->
                   products.categories p <> None).
  { intros p Hin. simpl in Hin.
    repeat (destruct Hin as [<-|Hin]; [discriminate|]). destruct Hin. }
  destruct (empty_menu_lists_whole_catalog Sample.ordinal ordinal_total
              no_fault Sample.db Sample.newcomer eq_refl eq_refl Hnone Hcat)
    as (ps & flattened & Hget & Hperm & HF & _).
  exists ps, flattened. split; [exact Hget|]. split; [exact Hperm|].
  clear Hget Hperm. induction HF as [|p v ps flattened (_ & Hname & _) _ IH];
    simpl; [reflexivity|]. rewrite Hname, IH. reflexivity.
Defined.

(** ** Objects as maps *)

Lemma own_put (o : Obj.t) (k k' : string) (v : Obj.value) :
  Obj.own (Obj.put o k v) k' = if String.eqb k k' then Some v else Obj.own o k'.
Proof.
  induction o as [|[k0 v0] o IH]; simpl.
  - reflexivity.
  - destruct (String.eqb k0 k) eqn:E0; simpl.
    + apply String.eqb_eq in E0. subst k0.
      destruct (String.eqb k k'); reflexivity.
    + destruct (String.eqb k0 k') eqn:E1.
      * apply String.eqb_eq in E1. subst k0.
        rewrite String.eqb_sym, E0. reflexivity.
      * exact IH.
Qed.

Lemma own_none_keys (o : Obj.t) (k : string) :
  Obj.own o k = None <-> ~ In k (map fst o).
Proof.
  induction o as [|[k0 v0] o IH]; simpl.
  - tauto.
  - destruct (String.eqb_spec k0 k) as [->|Hne].
    + split; [discriminate | intros H; exfalso; apply H; left; reflexivity].
    + rewrite IH. tauto.
Qed.

Lemma keys_put (o : Obj.t) (k : string) (v : Obj.value) :
  map fst (Obj.put o k v)
  = match Obj.own o k with
    | Some _ => map fst o
    | None => (map fst o ++ [k])%list
    end.
Proof.
  induction o as [|[k0 v0] o IH]; simpl.
  - reflexivity.
  - destruct (String.eqb k0 k) eqn:E0; simpl.
    + reflexivity.
    + rewrite IH. destruct (Obj.own o k); reflexivity.
Qed.

Lemma NoDup_snoc {A : Type} (l : list A) (x : A) :
  NoDup l -> ~ In x l -> NoDup (l ++ [x]).
Proof.
  intros Hl Hx. apply (Permutation_NoDup (l := x :: l)).
  - apply Permutation_cons_append.
  - constructor; assumption.
Qed.

Lemma keys_put_NoDup (o : Obj.t) (k : string) (v : Obj.value) :
  NoDup (map fst o) -> NoDup (map fst (Obj.put o k v)).
Proof.
  intros H. rewrite keys_put. destruct (Obj.own o k) eqn:E.
  - exact H.
  - apply NoDup_snoc; [exact H | apply own_none_keys; exact E].
Qed.

Lemma own_In (o : Obj.t) (k : string) (v : Obj.value) :
  NoDup (map fst o) -> (In (k, v) o <-> Obj.own o k = Some v).
Proof.
  induction o as [|[k0 v0] o IH]; simpl; intros Hnd.
  - split; [tauto | discriminate].
  - inversion Hnd as [|? ? Hnotin Hnd']; subst.
    destruct (String.eqb_spec k0 k) as [->|Hne].
    + split.
      * intros [H|H]; [inversion H; reflexivity|].
        exfalso. apply Hnotin. apply in_map_iff. exists (k, v). auto.
      * intros H. inversion H. left. reflexivity.
    + rewrite <- (IH Hnd'). split.
      * intros [H|H]; [inversion H; contradiction | exact H].
      * intros H. right. exact H.
Qed.

Lemma same_own_perm (o1 o2 : Obj.t) :
  NoDup (map fst o1) -> NoDup (map fst o2) ->
  (forall k, Obj.own o1 k = Obj.own o2 k) ->
  Permutation o1 o2.
Proof.
  intros H1 H2 Hown. apply NoDup_Permutation.
  - eapply NoDup_map_inv. exact H1.
  - eapply NoDup_map_inv. exact H2.
  - intros [k v]. rewrite (own_In o1 k v H1), (own_In o2 k v H2), Hown. tauto.
Qed.

Lemma filter_split_perm {A : Type} (f : A -> bool) (l : list A) :
  Permutation (filter f l ++ filter (fun x => negb (f x)) l) l.
Proof.
  induction l as [|x l IH]; simpl.
  - constructor.
  - destruct (f x); simpl.
    + constructor. exact IH.
    + apply Permutation_sym. apply Permutation_cons_app.
      apply Permutation_sym. exact IH.
Qed.

Lemma entries_perm (o : Obj.t) : Permutation (Obj.entries o) o.
Proof.
  unfold Obj.entries.
  eapply perm_trans; [| apply (filter_split_perm Obj.isIndex)].
  apply Permutation_app_tail. apply sort_perm.
Qed.

(** ** Counting per category *)

Section Counting.

Variable nativeText : string -> string.

Lemma get_own (o : Obj.t) (k : string) :
  Obj.get o k = match Obj.own o k with
                | Some v => Obj.Own v
                | None => Obj.get [] k
                end.
Proof. unfold Obj.get. simpl. destruct (Obj.own o k); reflexivity. Qed.

Lemma occ_snoc (pre : list string) (c k : string) :
  Tally.occ (pre ++ [c]) k
  = (Tally.occ pre k + if String.eqb c k then 1 else 0)%nat.
Proof.
  unfold Tally.occ. rewrite count_occ_app. simpl.
  destruct (string_dec c k) as [->|Hne].
  - rewrite String.eqb_refl. reflexivity.
  - apply String.eqb_neq in Hne. rewrite Hne. reflexivity.
Qed.

Lemma increment_holds (o : Obj.t) (pre : list string) (c : string) :
  Tally.holds nativeText o pre ->
  Tally.holds nativeText (Obj.increment nativeText o c) (pre ++ [c]).
Proof.
  intros [Hnd Hown]. unfold Obj.increment, Obj.set.
  destruct (String.eqb_spec c "__proto__") as [->|Hproto].
  - split; [exact Hnd|]. intros k. rewrite Hown. unfold Tally.expected.
    destruct (String.eqb_spec k "__proto__") as [->|Hk]; [reflexivity|].
    rewrite occ_snoc.
    replace (String.eqb "__proto__" k) with false
      by (symmetry; apply String.eqb_neq; congruence).
    rewrite Nat.add_0_r. reflexivity.
  - split; [apply keys_put_NoDup; exact Hnd|].
    intros k. rewrite own_put. unfold Tally.expected. rewrite occ_snoc.
    destruct (String.eqb_spec c k) as [<-|Hck].
    + replace (String.eqb c "__proto__") with false
        by (symmetry; apply String.eqb_neq; exact Hproto).
      rewrite get_own, Hown. unfold Tally.expected.
      replace (String.eqb c "__proto__") with false
        by (symmetry; apply String.eqb_neq; exact Hproto).
      destruct (Tally.occ pre c) as [|m]; [reflexivity|].
      rewrite Nat.add_1_r. reflexivity.
    + rewrite Nat.add_0_r. rewrite Hown. reflexivity.
Qed.

Lemma tally_holds (cats : list string) :
  forall (pre : list string) (o : Obj.t),
    Tally.holds nativeText o pre ->
    Tally.holds nativeText (fold_left (Obj.increment nativeText) cats o)
                (pre ++ cats).
Proof.
  induction cats as [|c cats IH]; intros pre o H; simpl.
  - rewrite app_nil_r. exact H.
  - replace (pre ++ c :: cats)%list with ((pre ++ [c]) ++ cats)%list
      by (rewrite <- app_assoc; reflexivity).
    apply IH. apply increment_holds. exact H.
Qed.

Lemma empty_holds : Tally.holds nativeText [] [].
Proof.
  split; [constructor|]. intros k. unfold Tally.expected. simpl.
  destruct (String.eqb k "__proto__"); reflexivity.
Qed.

Lemma fold_count_step_none (items : list joined.row) :
  fold_left (count_step nativeText) items None = None.
Proof. induction items; simpl; auto. Qed.

Lemma countsMap_tally (items : list joined.row) :
  forall o,
    fold_left (count_step nativeText) items (Some o)
    = option_map (fun cats => fold_left (Obj.increment nativeText) cats o)
                 (Js.traverse category_of items).
Proof.
  induction items as [|mi items IH]; intros o; simpl.
  - reflexivity.
  - destruct (category_of mi) as [cat|].
    + rewrite IH. destruct (Js.traverse category_of items); reflexivity.
    + apply fold_count_step_none.
Qed.

Lemma stored_ordinary (k : string) (n : nat) :
  Obj.inherited k = false ->
  Tally.stored nativeText k n = Obj.Num (Z.of_nat n + 1).
Proof.
  unfold Obj.inherited. intros H. apply orb_false_iff in H. destruct H as [Hp Hm].
  induction n as [|n IH].
  - simpl. unfold Obj.get. simpl Obj.own. cbv iota. rewrite Hp, Hm. reflexivity.
  - cbn [Tally.stored]. rewrite IH. simpl. f_equal. lia.
Qed.

End Counting.

Lemma traverse_perm {A B : Type} (f : A -> option B) (xs ys : list A) :
  Permutation xs ys ->
  match Js.traverse f xs, Js.traverse f ys with
  | Some a, Some b => Permutation a b
  | None, None => True
  | _, _ => False
  end.
Proof.
  induction 1 as [|x xs ys Hp IH|x y l|xs ys zs H1 IH1 H2 IH2]; simpl.
  - constructor.
  - destruct (f x); [|exact I].
    destruct (Js.traverse f xs), (Js.traverse f ys); simpl; try exact IH.
    constructor. exact IH.
  - destruct (f x), (f y), (Js.traverse f l); simpl; try exact I.
    apply perm_swap.
  - destruct (Js.traverse f xs), (Js.traverse f ys), (Js.traverse f zs);
      try exact I; try contradiction.
    eapply perm_trans; eassumption.
Qed.

Lemma filter_perm {A : Type} (f : A -> bool) (l l' : list A) :
  Permutation l l' -> Permutation (filter f l) (filter f l').
Proof.
  induction 1 as [|x l l' Hp IH|x y l|l l' l'' H1 IH1 H2 IH2]; simpl.
  - constructor.
  - destruct (f x); [constructor|]; exact IH.
  - destruct (f x), (f y); try apply Permutation_refl. apply perm_swap.
  - eapply perm_trans; eassumption.
Qed.

Lemma NoDup_map_same {A B : Type} (f : A -> B) (l : list A) (a b : A) :
  NoDup (map f l) -> In a l -> In b l -> f a = f b -> a = b.
Proof.
  induction l as [|x l IH]; simpl; intros Hnd Ha Hb Hab; [contradiction|].
  inversion Hnd as [|? ? Hnotin Hnd']; subst.
  destruct Ha as [->|Ha], Hb as [->|Hb].
  - reflexivity.
  - exfalso. apply Hnotin. rewrite Hab. apply in_map. exact Hb.
  - exfalso. apply Hnotin. rewrite <- Hab. apply in_map. exact Ha.
  - apply IH; assumption.
Qed.

Section MenuCounts.

Variable localeCompare : string -> string -> Z.
Variable nativeText : string -> string.

Hypothesis localeCompare_total :
  forall a b, localeCompare a b <= 0 \/ localeCompare b a <= 0.
Hypothesis localeCompare_trans :
  forall a b c, localeCompare a b <= 0 -> localeCompare b c <= 0 ->
                localeCompare a c <= 0.
Hypothesis localeCompare_antisym :
  forall a b, localeCompare a b <= 0 -> localeCompare b a <= 0 -> a = b.

Lemma results_perm (o : Obj.t) :
  Permutation (Tally.results_of localeCompare o) (map toCategoryCount o).
Proof.
  unfold Tally.results_of. eapply perm_trans; [apply sort_perm|].
  apply Permutation_map, entries_perm.
Qed.

Lemma results_keys (o : Obj.t) :
  NoDup (map fst o) ->
  NoDup (map CategoryCount.category (Tally.results_of localeCompare o)).
Proof.
  intros H. eapply Permutation_NoDup.
  - apply Permutation_sym. apply Permutation_map. apply results_perm.
  - rewrite map_map. simpl. exact H.
Qed.

Lemma results_sorted (o : Obj.t) :
  StronglySorted (Js.before (by_category localeCompare))
                 (Tally.results_of localeCompare o).
Proof.
  apply sort_strongly_sorted; unfold by_category.
  - intros a b. apply localeCompare_total.
  - intros a b c. apply localeCompare_trans.
Qed.

Lemma results_same (o1 o2 : Obj.t) :
  NoDup (map fst o1) -> Permutation o1 o2 ->
  Tally.results_of localeCompare o1 = Tally.results_of localeCompare o2.
Proof.
  intros Hnd Hp.
  apply (sorted_perm_unique (Js.before (by_category localeCompare))).
  - intros a b Ha Hb Hab Hba.
    apply (NoDup_map_same CategoryCount.category (Tally.results_of localeCompare o1));
      try assumption.
    + apply results_keys. exact Hnd.
    + apply localeCompare_antisym; assumption.
  - apply results_sorted.
  - apply results_sorted.
  - eapply perm_trans; [apply results_perm|].
    eapply perm_trans; [apply Permutation_map; exact Hp|].
    apply Permutation_sym, results_perm.
Qed.

Lemma tally_of (cats : list string) :
  Tally.holds nativeText (fold_left (Obj.increment nativeText) cats []) cats.
Proof. apply (tally_holds nativeText cats [] []), empty_holds. Qed.

Lemma countByCategory_tally (items : list joined.row) :
  countByCategory localeCompare nativeText items
  = option_map (fun cats =>
                  Tally.results_of localeCompare
                    (fold_left (Obj.increment nativeText) cats []))
               (Js.traverse category_of items).
Proof.
  unfold countByCategory, countsMap. rewrite countsMap_tally.
  destruct (Js.traverse category_of items); reflexivity.
Qed.

Lemma expected_perm (cats1 cats2 : list string) (k : string) :
  Permutation cats1 cats2 ->
  Tally.expected nativeText cats1 k = Tally.expected nativeText cats2 k.
Proof.
  intros Hp. unfold Tally.expected, Tally.occ.
  rewrite (Permutation_count_occ string_dec cats1 cats2) in Hp.
  rewrite Hp. reflexivity.
Qed.

Lemma countByCategory_perm (items1 items2 : list joined.row) :
  Permutation items1 items2 ->
  countByCategory localeCompare nativeText items1
  = countByCategory localeCompare nativeText items2.
Proof.
  intros Hp. rewrite !countByCategory_tally.
  pose proof (traverse_perm category_of items1 items2 Hp) as Ht.
  destruct (Js.traverse category_of items1) as [cats1|],
           (Js.traverse category_of items2) as [cats2|];
    try contradiction; [|reflexivity].
  simpl. f_equal.
  destruct (tally_of cats1) as [Hnd1 Hown1].
  destruct (tally_of cats2) as [Hnd2 Hown2].
  apply results_same; [exact Hnd1|].
  apply same_own_perm; try assumption.
  intros k. rewrite Hown1, Hown2. apply expected_perm. exact Ht.
Qed.

Lemma menu_items_inner_perm (db1 db2 : Db.t) (businessId : Z) :
  Db.products db1 = Db.products db2 ->
  Db.sales db1 = Db.sales db2 ->
  Permutation (Db.menu_items db1) (Db.menu_items db2) ->
  Permutation (Client.menu_items_inner db1 businessId)
              (Client.menu_items_inner db2 businessId).
Proof.
  intros Hprod Hsales Hp.
  unfold Client.menu_items_inner, Client.menu_items_of.
  apply filter_perm.
  replace (Client.embed db1) with (Client.embed db2).
  - apply Permutation_map, filter_perm. exact Hp.
  - unfold Client.embed. rewrite Hprod, Hsales. reflexivity.
Qed.

Lemma counted (cats : list string) (c : string) :
  Obj.inherited c = false ->
  In c cats <->
  In {| CategoryCount.category := c;
        CategoryCount.count_on_menu := Obj.Num (Z.of_nat (Tally.occ cats c)) |}
     (Tally.results_of localeCompare (fold_left (Obj.increment nativeText) cats [])).
Proof.
  intros Hord.
  destruct (tally_of cats) as [Hnd Hown].
  set (o := fold_left (Obj.increment nativeText) cats []) in *.
  assert (Hin : forall v,
             In {| CategoryCount.category := c; CategoryCount.count_on_menu := v |}
                (Tally.results_of localeCompare o)
             <-> Obj.own o c = Some v).
  { intros v. rewrite <- (own_In o c v Hnd). split; intros H.
    - apply (Permutation_in _ (results_perm o)) in H.
      apply in_map_iff in H. destruct H as ([k w] & Heq & H).
      inversion Heq; subst. exact H.
    - apply (Permutation_in _ (Permutation_sym (results_perm o))).
      apply in_map_iff. exists (c, v). split; [reflexivity | exact H]. }
  rewrite Hin, Hown. unfold Tally.expected.
  assert (Hp : String.eqb c "__proto__" = false).
  { unfold Obj.inherited in Hord. apply orb_false_iff in Hord. tauto. }
  rewrite Hp. unfold Tally.occ.
  rewrite (count_occ_In string_dec cats c).
  destruct (count_occ string_dec cats c) as [|n] eqn:E.
  - split; [lia | discriminate].
  - rewrite (stored_ordinary nativeText c n Hord).
    split; [intros _ | lia]. do 2 f_equal. lia.
Qed.


End MenuCounts.


(* ================================================================= *)
(** * Part III: further properties of the handlers *)
(* ================================================================= *)

(** ** Numbers as text, and back *)

Lemma digit_of_char (d : Z) :
  0 <= d < 10 -> Js.digit (ascii_of_N (Z.to_N (48 + d))) = Some d.
Proof.
  intros H. unfold Js.digit.
  rewrite N_ascii_embedding by lia. rewrite Z2N.id by lia.
  replace (48 <=? 48 + d) with true by (symmetry; apply Z.leb_le; lia).
  replace (48 + d <=? 57) with true by (symmetry; apply Z.leb_le; lia).
  cbn [andb]. f_equal. lia.
Qed.

Lemma append_assoc (a b c : string) : (a ++ b) ++ c = a ++ (b ++ c).
Proof. induction a as [|x a IH]; simpl; [reflexivity | rewrite IH; reflexivity]. Qed.

Lemma length_append (a b : string) :
  String.length (a ++ b) = (String.length a + String.length b)%nat.
Proof. induction a as [|x a IH]; simpl; [reflexivity | rewrite IH; reflexivity]. Qed.

Lemma contains_append (c : ascii) (a b : string) :
  Text.contains c (a ++ b) = Text.contains c a || Text.contains c b.
Proof.
  induction a as [|x a IH]; simpl; [reflexivity|].
  rewrite IH, orb_assoc. reflexivity.
Qed.

(** What [digitsOf] puts before its accumulator: a run of digits, not
    empty, that reads back as the number. *)
Lemma digitsOf_reads_back (fuel : nat) :
  forall (n : Z) (acc : string),
    (0 < fuel)%nat -> 0 <= n < 10 ^ Z.of_nat fuel ->
    exists ds,
      Js.digitsOf fuel n acc = ds ++ acc
      /\ ds <> EmptyString
      /\ (forall rest k,
             Js.parse_digits (ds ++ rest) k
             = Js.parse_digits rest (k * 10 ^ Z.of_nat (String.length ds) + n))
      /\ (forall c, Text.contains c ds = true -> Js.digit c <> None).
Proof.
  induction fuel as [|fuel IH]; intros n acc Hfuel Hn; [lia|].
  cbn [Js.digitsOf].
  assert (Hdm : n = 10 * (n / 10) + n mod 10) by (apply Z.div_mod; lia).
  assert (Hmod : 0 <= n mod 10 < 10) by (apply Z.mod_pos_bound; lia).
  assert (Hc : Js.digit (ascii_of_N (Z.to_N (48 + n mod 10))) = Some (n mod 10))
    by (apply digit_of_char; exact Hmod).
  set (c := ascii_of_N (Z.to_N (48 + n mod 10))) in *.
  clearbody c.
  destruct (Z.eqb_spec (n / 10) 0) as [Hsmall|Hbig].
  - exists (String c EmptyString). split; [reflexivity|].
    split; [discriminate|]. split.
    + intros rest k. cbn [append Js.parse_digits String.length]. rewrite Hc.
      f_equal. change (Z.of_nat 1) with 1. rewrite Z.pow_1_r. lia.
    + intros c'. simpl. rewrite orb_false_r. intros H.
      apply Ascii.eqb_eq in H. subst c'. rewrite Hc. discriminate.
  - assert (Hpos : (0 < fuel)%nat).
    { destruct fuel; [|lia]. simpl in Hn. exfalso. apply Hbig.
      apply Z.div_small. lia. }
    assert (Hn' : 0 <= n / 10 < 10 ^ Z.of_nat fuel).
    { rewrite Nat2Z.inj_succ, Z.pow_succ_r in Hn by lia.
      split; [apply Z.div_pos; lia | apply Z.div_lt_upper_bound; lia]. }
    destruct (IH (n / 10) (String c acc) Hpos Hn') as (ds & Heq & Hne & Hparse & Hdig).
    exists (ds ++ String c EmptyString).
    split; [rewrite Heq, append_assoc; reflexivity|].
    split; [destruct ds; [contradiction | discriminate]|].
    split.
    + intros rest k. rewrite append_assoc, Hparse.
      cbn [append Js.parse_digits]. rewrite Hc.
      f_equal. rewrite length_append. cbn [String.length].
      rewrite Nat2Z.inj_add. change (Z.of_nat 1) with 1.
      rewrite Z.pow_add_r by lia. rewrite Z.pow_1_r.
      lia.
    + intros c'. rewrite contains_append. simpl. rewrite orb_false_r.
      intros H. apply orb_true_iff in H. destruct H as [H|H].
      * apply Hdig. exact H.
      * apply Ascii.eqb_eq in H. subst c'. rewrite Hc. discriminate.
Qed.

Lemma fuel_suffices (n : Z) :
  0 <= n -> n < 10 ^ Z.of_nat (Z.to_nat (Z.log2 n) + 1).
Proof.
  intros Hn. rewrite Nat2Z.inj_add, Z2Nat.id by apply Z.log2_nonneg.
  simpl Z.of_nat.
  destruct (Z.eq_dec n 0) as [->|Hnz].
  - simpl. lia.
  - assert (H2 : n < 2 ^ (Z.log2 n + 1)).
    { pose proof (Z.log2_spec n ltac:(lia)) as H.
      replace (Z.log2 n + 1) with (Z.succ (Z.log2 n)) by lia. lia. }
    eapply Z.lt_le_trans; [exact H2|].
    apply Z.pow_le_mono_l. pose proof (Z.log2_nonneg n). lia.
Qed.

Lemma toString_digits (n : Z) :
  0 <= n ->
  exists ds,
    Js.toString n = ds
    /\ ds <> EmptyString
    /\ Js.parse_digits ds 0 = Some n
    /\ (forall c, Text.contains c ds = true -> Js.digit c <> None).
Proof.
  intros Hn. unfold Js.toString.
  replace (n <? 0) with false by (symmetry; apply Z.ltb_ge; lia).
  destruct (digitsOf_reads_back (Z.to_nat (Z.log2 n) + 1) n EmptyString
              ltac:(lia) (conj Hn (fuel_suffices n Hn)))
    as (ds & Heq & Hne & Hparse & Hdig).
  assert (Hnil : forall s, s ++ "" = s).
  { induction s as [|x s IHs]; simpl; [reflexivity | rewrite IHs; reflexivity]. }
  rewrite Hnil in Heq. exists ds. split; [exact Heq|]. split; [exact Hne|].
  split; [| exact Hdig].
  specialize (Hparse EmptyString 0). rewrite Hnil in Hparse.
  rewrite Hparse. simpl. f_equal.
Qed.

(** Reading the text of a number gives the number. *)
Lemma parse_int_toString (n : Z) : Client.parse_int (Js.toString n) = Some n.
Proof.
  destruct (Z.ltb_spec n 0) as [Hneg|Hpos].
  - unfold Js.toString. replace (n <? 0) with true by (symmetry; apply Z.ltb_lt; lia).
    destruct (toString_digits (- n) ltac:(lia)) as (ds & Heq & Hne & Hparse & _).
    unfold Js.toString in Heq.
    replace (- n <? 0) with false in Heq by (symmetry; apply Z.ltb_ge; lia).
    rewrite Heq. destruct ds as [|c ds]; [contradiction|].
    unfold Client.parse_int. rewrite Hparse. simpl. f_equal. lia.
  - destruct (toString_digits n Hpos) as (ds & Heq & Hne & Hparse & Hdig).
    rewrite Heq. destruct ds as [|c ds]; [contradiction|].
    unfold Client.parse_int.
    destruct (Ascii.eqb_spec c "-") as [->|Hc].
    + exfalso. apply (Hdig "-"%char); [simpl; reflexivity | reflexivity].
    + destruct c as [[] [] [] [] [] [] [] []]; try exact Hparse;
        destruct ds; try exact Hparse; exfalso; apply Hc; reflexivity.
Qed.

Lemma toString_without (c : ascii) (n : Z) :
  Js.digit c = None -> c <> "-"%char -> Text.contains c (Js.toString n) = false.
Proof.
  intros Hc Hminus.
  destruct (Z.ltb_spec n 0) as [Hneg|Hpos].
  - unfold Js.toString. replace (n <? 0) with true by (symmetry; apply Z.ltb_lt; lia).
    destruct (toString_digits (- n) ltac:(lia)) as (ds & Heq & _ & _ & Hdig).
    unfold Js.toString in Heq.
    replace (- n <? 0) with false in Heq by (symmetry; apply Z.ltb_ge; lia).
    rewrite Heq. cbn [Text.contains].
    replace (Ascii.eqb "-" c) with false
      by (symmetry; apply Ascii.eqb_neq; congruence).
    cbn [orb]. destruct (Text.contains c ds) eqn:E; [|reflexivity].
    exfalso. exact (Hdig c E Hc).
  - destruct (toString_digits n Hpos) as (ds & Heq & _ & _ & Hdig).
    rewrite Heq. destruct (Text.contains c ds) eqn:E; [|reflexivity].
    exfalso. exact (Hdig c E Hc).
Qed.

Lemma toString_not_empty (n : Z) : Js.toString n <> EmptyString.
Proof.
  destruct (Z.ltb_spec n 0) as [Hneg|Hpos].
  - unfold Js.toString. replace (n <? 0) with true by (symmetry; apply Z.ltb_lt; lia).
    discriminate.
  - destruct (toString_digits n Hpos) as (ds & Heq & Hne & _). rewrite Heq. exact Hne.
Qed.

(** ** The operand of the exclusion filter *)

Lemma split_join (c : ascii) (xs : list string) :
  xs <> [] ->
  (forall x, In x xs -> Text.contains c x = false) ->
  Js.split c (Js.join (String c EmptyString) xs) = xs.
Proof.
  induction xs as [|x xs IH]; intros Hne Hfree; [contradiction|].
  destruct xs as [|y xs].
  - simpl. apply split_without. apply Hfree. left. reflexivity.
  - change (Js.join (String c EmptyString) (x :: y :: xs))
      with (x ++ String c (Js.join (String c EmptyString) (y :: xs))).
    rewrite split_at, IH.
    + rewrite (split_without c x) by (apply Hfree; left; reflexivity).
      reflexivity.
    + discriminate.
    + intros z Hz. apply Hfree. right. exact Hz.
Qed.

Lemma dropLast_cons (c d : ascii) (r : string) :
  Client.dropLast (String c (String d r))
  = option_map (String c) (Client.dropLast (String d r)).
Proof. destruct c as [[] [] [] [] [] [] [] []]; reflexivity. Qed.

Lemma dropLast_snoc (s : string) : Client.dropLast (s ++ ")") = Some s.
Proof.
  induction s as [|c s IH]; [reflexivity|].
  destruct s as [|d s].
  - destruct c as [[] [] [] [] [] [] [] []]; reflexivity.
  - change ((String c (String d s)) ++ ")") with (String c (String d (s ++ ")"))).
    rewrite dropLast_cons.
    change (String d (s ++ ")")) with (String d s ++ ")"). rewrite IH. reflexivity.
Qed.

Lemma parse_all_toString (ids : list Z) :
  Client.parse_all (map Js.toString ids) = Some ids.
Proof.
  induction ids as [|i ids IH]; simpl; [reflexivity|].
  rewrite parse_int_toString, IH. reflexivity.
Qed.

(** X11. The operand the handler builds from a list of identifiers,
    [(] then their decimal texts joined by commas then [)], is read back
    by the store as that list, whatever the identifiers are and however
    many. *)
Theorem in_list_round_trip :
  forall ids : list Z,
    Client.parse_in_list ("(" ++ Js.join "," (map Js.toString ids) ++ ")")
    = Some ids.
Proof.
  intros [|i ids]; [reflexivity|].
  change ("(" ++ Js.join "," (map Js.toString (i :: ids)) ++ ")")
    with (String "(" (Js.join "," (map Js.toString (i :: ids)) ++ ")")).
  unfold Client.parse_in_list. rewrite dropLast_snoc.
  rewrite split_join.
  - pose proof (parse_all_toString (i :: ids)) as Hall.
    pose proof (toString_not_empty i) as Hne.
    cbn [map] in Hall |- *.
    destruct (Js.toString i) as [|a s]; [contradiction|].
    destruct (map Js.toString ids); exact Hall.
  - discriminate.
  - intros x Hx. apply in_map_iff in Hx. destruct Hx as (n & <- & _).
    apply toString_without; [reflexivity | discriminate].
Qed.

(** ** Products not on the menu, in general *)

Lemma mem_product_ids (x : Z) (items : list menu_items.row) :
  Client.mem x (map menu_items.product_id items)
  = existsb (fun mi => menu_items.product_id mi =? x) items.
Proof.
  unfold Client.mem. induction items as [|mi items IH]; simpl; [reflexivity|].
  rewrite IH, (Z.eqb_sym x). reflexivity.
Qed.

Lemma not_on_menu_answer (collate : string -> string -> Z) (fault : faults)
      (db : Db.t) (user : session_user.t) :
  fault 0%nat = None -> fault 1%nat = None ->
  exists flattened,
    get_items_not_on_menu collate fault db (Some user)
    = Reply 200 (not_on_menu flattened)
    /\ Forall2 Spec.shown_as
         (Js.sort (fun p q => collate (products.name p) (products.name q))
                  (filter (Spec.offered db (session_user.id user)) (Db.products db)))
         flattened.
Proof.
  intros Hf0 Hf1. unfold get_items_not_on_menu. rewrite Hf0, Hf1.
  cbv zeta. unfold products_not_in. rewrite in_list_round_trip.
  rewrite (filter_ext _ (Spec.offered db (session_user.id user))).
  2:{ intros p. unfold Spec.offered, Spec.on_menu, Spec.owned.
      rewrite mem_product_ids. reflexivity. }
  set (ps := Js.sort _ _).
  destruct (traverse_Forall2 flattenProduct Spec.shown_as ps) as (fl & Hfl & HF).
  { intros p Hp.
    assert (Hin : In p (filter (Spec.offered db (session_user.id user)) (Db.products db)))
      by (eapply Permutation_in; [apply sort_perm | exact Hp]).
    apply filter_In in Hin. destruct Hin as [_ Hoff].
    unfold Spec.offered in Hoff. unfold flattenProduct, Spec.shown_as.
    destruct (products.categories p) as [[cat]|]; [|discriminate].
    eexists. split; [reflexivity|]. simpl. repeat split. }
  exists fl. rewrite Hfl. split; [reflexivity | exact HF].
Qed.

Lemma Forall2_in_r {A B : Type} (R : A -> B -> Prop) (xs : list A) (ys : list B)
      (y : B) :
  Forall2 R xs ys -> In y ys -> exists x, In x xs /\ R x y.
Proof.
  induction 1 as [|x0 y0 xs ys HR HF IH]; simpl; intros Hin; [contradiction|].
  destruct Hin as [<-|Hin].
  - exists x0. split; [left; reflexivity | exact HR].
  - destruct (IH Hin) as (x & Hx & Hxy). exists x. split; [right; exact Hx | exact Hxy].
Qed.

Section Catalog.

Variable collate : string -> string -> Z.
Hypothesis collate_total : forall a b, collate a b <= 0 \/ collate b a <= 0.

(** X12. When both store calls go through, GET /api/items-not-on-menu
    answers 200 with exactly the products that have a category and that
    no menu item of the session's business refers to: the views are
    those of a rearrangement of these products, field by field, in
    ascending order of the name. *)
Theorem not_on_menu_is_catalog_minus_menu :
  forall (fault : faults) (db : Db.t) (user : session_user.t),
    fault 0%nat = None -> fault 1%nat = None ->
    exists ps flattened,
      get_items_not_on_menu collate fault db (Some user)
      = Reply 200 (not_on_menu flattened)
      /\ Permutation
           (filter (Spec.offered db (session_user.id user)) (Db.products db)) ps
      /\ Forall2 Spec.shown_as ps flattened
      /\ Sorted (fun a b => collate (NotOnMenuView.name a)
                                    (NotOnMenuView.name b) <= 0) flattened.
Proof.
  intros fault db user Hf0 Hf1.
  destruct (not_on_menu_answer collate fault db user Hf0 Hf1) as (fl & Hget & HF).
  eexists; exists fl. split; [exact Hget|].
  split; [apply Permutation_sym, sort_perm|]. split; [exact HF|].
  assert (Hs : Sorted (Js.before (fun p q => collate (products.name p)
                                                     (products.name q)))
                 (Js.sort (fun p q => collate (products.name p) (products.name q))
                          (filter (Spec.offered db (session_user.id user))
                                  (Db.products db)))).
  { apply sort_sorted. intros p q. apply collate_total. }
  revert Hs. apply Sorted_Forall2 with (2 := HF).
  intros p q v w (_ & Hv & _) (_ & Hw & _). unfold Js.before.
  rewrite Hv, Hw. exact (fun H => H).
Qed.

End Catalog.

Lemma not_on_menu_is_catalog_minus_menu_witness :
  exists ps flattened,
    get_items_not_on_menu Sample.ordinal no_fault Sample.db Sample.as_anna
    = Reply 200 (not_on_menu flattened)
    /\ Permutation [Sample.pie] ps
    /\ Forall2 Spec.shown_as ps flattened.
Proof.
  destruct (not_on_menu_is_catalog_minus_menu Sample.ordinal ordinal_total
              no_fault Sample.db Sample.anna_user eq_refl eq_refl)
    as (ps & fl & Hget & Hperm & HF & _).
  exists ps, fl. split; [exact Hget|]. split; [exact Hperm | exact HF].
Defined.

Lemma not_on_menu_200 (collate : string -> string -> Z) (fault : faults)
      (db : Db.t) (user : session_user.t) (flattened : list NotOnMenuView.t) :
  get_items_not_on_menu collate fault db (Some user)
  = Reply 200 (not_on_menu flattened) ->
  fault 0%nat = None /\ fault 1%nat = None.
Proof.
  unfold get_items_not_on_menu.
  destruct (fault 0%nat); [discriminate|].
  destruct (fault 1%nat); [discriminate|]. intros _. split; reflexivity.
Qed.

(** X13. Once POST /api/menu-items has put a product on the menu of a
    business, no later 200 answer of GET /api/items-not-on-menu for
    that business lists the product. *)
Theorem posted_product_leaves_the_list :
  forall (collate : string -> string -> Z) (insertId : Z) (created_at : string)
         (fault fault' : faults) (db : Db.t) (user : session_user.t)
         (product_id price : Z) (flattened : list NotOnMenuView.t),
    fault 0%nat = None ->
    get_items_not_on_menu collate fault'
      (snd (post_menu_item insertId created_at fault db (Some user)
                           product_id price))
      (Some user)
    = Reply 200 (not_on_menu flattened) ->
    forall v, In v flattened -> NotOnMenuView.id v <> product_id.
Proof.
  intros collate insertId created_at fault fault' db user pid price fl Hf Hget v Hv Hid.
  destruct (not_on_menu_200 _ _ _ _ _ Hget) as [Hf0 Hf1].
  destruct (not_on_menu_answer collate fault'
              (snd (post_menu_item insertId created_at fault db (Some user)
                                   pid price))
              user Hf0 Hf1) as (fl' & Hget' & HF).
  rewrite Hget in Hget'. injection Hget' as <-.
  destruct (Forall2_in_r _ _ _ _ HF Hv) as (p & Hp & Hshown).
  apply (Permutation_in _ (sort_perm _ _)) in Hp.
  apply filter_In in Hp. destruct Hp as [_ Hoff].
  unfold Spec.offered in Hoff.
  destruct (products.categories p); [|discriminate].
  apply negb_true_iff in Hoff.
  assert (Hon : Spec.on_menu
                  (snd (post_menu_item insertId created_at fault db (Some user)
                                       pid price))
                  (session_user.id user) p = true).
  { unfold post_menu_item. rewrite Hf. unfold Spec.on_menu, Spec.owned. simpl.
    rewrite filter_app, existsb_app. simpl. rewrite Z.eqb_refl. simpl.
    destruct Hshown as (Hidv & _). rewrite <- Hidv, Hid, Z.eqb_refl.
    apply orb_true_r. }
  rewrite Hon in Hoff. discriminate.
Qed.

Lemma posted_product_leaves_the_list_witness :
  exists flattened,
    get_items_not_on_menu Sample.ordinal no_fault
      (snd (post_menu_item 8 "2026-02-01T10:00:00" no_fault Sample.db
                           Sample.as_anna 12 450))
      Sample.as_anna
    = Reply 200 (not_on_menu flattened)
    /\ forall v, In v flattened -> NotOnMenuView.id v <> 12.
Proof.
  eexists. split; [reflexivity|].
  apply (posted_product_leaves_the_list Sample.ordinal 8 "2026-02-01T10:00:00"
           no_fault no_fault Sample.db Sample.anna_user 12 450 _ eq_refl).
  reflexivity.
Defined.

Lemma db_eta (db : Db.t) :
  {| Db.business_info := Db.business_info db; Db.products := Db.products db;
     Db.menu_items := Db.menu_items db; Db.sales := Db.sales db |} = db.
Proof. destruct db; reflexivity. Qed.

(** X14. A menu item created by POST /api/menu-items and deleted again
    by its owner, under the identifier the store gave it, leaves the
    store as it was before the two requests, when that identifier was
    new: no menu item had it and no sale referred to it. *)
Theorem post_then_delete_restores :
  forall (insertId : Z) (created_at : string) (fault : faults) (db : Db.t)
         (user : session_user.t) (product_id price : Z),
    fault 0%nat = None ->
    (forall mi, In mi (Db.menu_items db) ->
                menu_items.id_menu_item mi <> insertId) ->
    (forall s, In s (Db.sales db) -> sales.menu_item_id s <> insertId) ->
    fst (post_menu_item insertId created_at fault db (Some user) product_id price)
    = Answer 200 (item_created insertId)
    /\ delete_menu_item no_fault
         (snd (post_menu_item insertId created_at fault db (Some user)
                              product_id price))
         (Some user) insertId
       = (Reply 200 success, db).
Proof.
  intros insertId created_at fault db user pid price Hf Hitems Hsales.
  unfold post_menu_item. rewrite Hf. split; [reflexivity|].
  cbn [snd].
  set (row := {| menu_items.id_menu_item := insertId;
                 menu_items.business_id := session_user.id user;
                 menu_items.product_id := pid;
                 menu_items.price := price;
                 menu_items.created_at := created_at |}).
  assert (Hrow : Client.matches insertId (session_user.id user) row = true)
    by (unfold Client.matches; simpl; rewrite !Z.eqb_refl; reflexivity).
  assert (Hold : forall mi, In mi (Db.menu_items db) ->
                   Client.matches insertId (session_user.id user) mi = false).
  { intros mi Hin. unfold Client.matches.
    replace (menu_items.id_menu_item mi =? insertId) with false
      by (symmetry; apply Z.eqb_neq, Hitems, Hin).
    reflexivity. }
  unfold delete_menu_item, Client.delete_menu_item, Client.delete_sales.
  cbn [no_fault Db.menu_items Db.sales Db.business_info Db.products].
  rewrite !filter_app. cbn [filter]. rewrite Hrow. cbn [negb].
  rewrite (filter_none _ _ Hold). cbn [app List.length Nat.eqb].
  f_equal. rewrite app_nil_r.
  rewrite (filter_all (fun mi => negb (Client.matches insertId (session_user.id user) mi))).
  2:{ intros mi Hin. rewrite (Hold mi Hin). reflexivity. }
  rewrite (filter_all (fun s => negb (sales.menu_item_id s =? insertId))).
  2:{ intros s Hin.
      replace (sales.menu_item_id s =? insertId) with false
        by (symmetry; apply Z.eqb_neq, Hsales, Hin).
      reflexivity. }
  apply db_eta.
Qed.

Lemma post_then_delete_restores_witness :
  delete_menu_item no_fault
    (snd (post_menu_item 8 "2026-02-01T10:00:00" no_fault Sample.db
                         Sample.as_anna 12 450))
    Sample.as_anna 8
  = (Reply 200 success, Sample.db).
Proof.
  apply (post_then_delete_restores 8 "2026-02-01T10:00:00" no_fault Sample.db
           Sample.anna_user 12 450 eq_refl).
  - intros mi Hin. simpl in Hin.
    repeat (destruct Hin as [<-|Hin]; [discriminate|]). destruct Hin.
  - intros s Hin. simpl in Hin.
    repeat (destruct Hin as [<-|Hin]; [discriminate|]). destruct Hin.
Defined.

(** ** Deleting a menu item *)

(** X4. When both store calls go through and the session's business
    has a menu item with the identifier of the path, DELETE answers
    [{ success: true }]; afterwards the store holds every menu item it
    held except that one, every sale it held except those of that
    identifier, and the same products and businesses. *)
Theorem delete_removes_item_and_its_sales :
  forall (fault : faults) (db : Db.t) (user : session_user.t) (id : Z),
    fault 0%nat = None -> fault 1%nat = None ->
    (exists mi, In mi (Db.menu_items db)
                /\ menu_items.id_menu_item mi = id
                /\ menu_items.business_id mi = session_user.id user) ->
    exists db',
      delete_menu_item fault db (Some user) id = (Reply 200 success, db')
      /\ (forall mi, In mi (Db.menu_items db') <->
                     In mi (Db.menu_items db)
                     /\ ~ (menu_items.id_menu_item mi = id
                           /\ menu_items.business_id mi = session_user.id user))
      /\ (forall s, In s (Db.sales db') <->
                    In s (Db.sales db) /\ sales.menu_item_id s <> id)
      /\ Db.products db' = Db.products db
      /\ Db.business_info db' = Db.business_info db.
Proof.
  intros fault db user id Hf0 Hf1 (mi0 & Hin0 & Hid0 & Hb0).
  unfold delete_menu_item. rewrite Hf0, Hf1.
  unfold Client.delete_menu_item, Client.delete_sales.
  cbn [Db.menu_items Db.sales Db.business_info Db.products].
  destruct (filter (Client.matches id (session_user.id user)) (Db.menu_items db))
    as [|m ms] eqn:Hcount.
  - exfalso.
    assert (Hm : In mi0 (filter (Client.matches id (session_user.id user))
                                (Db.menu_items db))).
    { apply filter_In. split; [exact Hin0|]. unfold Client.matches.
      rewrite Hid0, Hb0, !Z.eqb_refl. reflexivity. }
    rewrite Hcount in Hm. exact Hm.
  - cbn [List.length Nat.eqb]. eexists. split; [reflexivity|].
    cbn [Db.menu_items Db.sales Db.business_info Db.products].
    split; [| split; [| split; reflexivity]].
    + intros mi. rewrite filter_In. unfold Client.matches.
      destruct (Z.eqb_spec (menu_items.id_menu_item mi) id);
        destruct (Z.eqb_spec (menu_items.business_id mi) (session_user.id user));
        cbn [andb negb]; intuition discriminate.
    + intros s. rewrite filter_In, negb_true_iff, Z.eqb_neq. tauto.
Qed.

Lemma delete_removes_item_and_its_sales_witness :
  exists db',
    delete_menu_item no_fault Sample.db Sample.as_anna 3 = (Reply 200 success, db')
    /\ (forall s, In s (Db.sales db') <->
                  In s (Db.sales Sample.db) /\ sales.menu_item_id s <> 3).
Proof.
  destruct (delete_removes_item_and_its_sales no_fault Sample.db
              Sample.anna_user 3 eq_refl eq_refl) as (db' & Hd & _ & Hs & _).
  - exists (Sample.item 3 1 10 250). split; [simpl; tauto | split; reflexivity].
  - exists db'. split; [exact Hd | exact Hs].
Defined.

(** X5. DELETE is not atomic.  When the call that deletes the sales
    goes through and the call that deletes the menu item fails, the
    answer is 500 [Failed deleting menu item], the menu items are all
    still there, and the sales of the identifier of the path are
    gone. *)
Theorem delete_failing_halfway_loses_sales :
  forall (fault : faults) (db : Db.t) (user : session_user.t) (id : Z),
    fault 0%nat = None -> fault 1%nat <> None ->
    exists db',
      delete_menu_item fault db (Some user) id
      = (Reply 500 (error_ "Failed deleting menu item"), db')
      /\ Db.menu_items db' = Db.menu_items db
      /\ (forall s, In s (Db.sales db') <->
                    In s (Db.sales db) /\ sales.menu_item_id s <> id).
Proof.
  intros fault db user id Hf0 Hf1. unfold delete_menu_item. rewrite Hf0.
  destruct (fault 1%nat) as [message|]; [|contradiction].
  eexists. split; [reflexivity|]. split; [reflexivity|].
  intros s. unfold Client.delete_sales. cbn [Db.sales].
  rewrite filter_In, negb_true_iff, Z.eqb_neq. tauto.
Qed.

Lemma delete_failing_halfway_loses_sales_witness :
  exists db',
    delete_menu_item Sample.second_call_fails Sample.db Sample.as_anna 3
    = (Reply 500 (error_ "Failed deleting menu item"), db')
    /\ Db.menu_items db' = Db.menu_items Sample.db
    /\ (forall s, In s (Db.sales db') <->
                  In s (Db.sales Sample.db) /\ sales.menu_item_id s <> 3).
Proof.
  apply (delete_failing_halfway_loses_sales Sample.second_call_fails Sample.db
           Sample.anna_user 3 eq_refl).
  discriminate.
Defined.

(** X6. DELETE can be repeated: after a DELETE whose two store calls
    went through, whatever it answered, the same request answers 404
    and leaves the store as the first one left it. *)
Theorem delete_again_is_404 :
  forall (fault : faults) (db : Db.t) (user : session_user.t) (id : Z),
    fault 0%nat = None -> fault 1%nat = None ->
    delete_menu_item no_fault
      (snd (delete_menu_item fault db (Some user) id)) (Some user) id
    = (Reply 404 (error_ "Item not found or no rights"),
       snd (delete_menu_item fault db (Some user) id)).
Proof.
  intros fault db user id Hf0 Hf1.
  assert (Hsnd : snd (delete_menu_item fault db (Some user) id)
                 = fst (Client.delete_menu_item (Client.delete_sales db id) id
                                                (session_user.id user))).
  { unfold delete_menu_item. rewrite Hf0, Hf1.
    unfold Client.delete_menu_item. cbn [fst].
    destruct (Nat.eqb _ 0); reflexivity. }
  rewrite Hsnd.
  unfold delete_menu_item, Client.delete_menu_item, Client.delete_sales.
  cbn [no_fault fst Db.menu_items Db.sales Db.business_info Db.products].
  rewrite (filter_none (Client.matches id (session_user.id user))
             (filter _ (Db.menu_items db))).
  2:{ intros mi Hin. apply filter_In in Hin. destruct Hin as [_ H].
      apply negb_true_iff. exact H. }
  cbn [List.length Nat.eqb]. rewrite !filter_twice. reflexivity.
Qed.

Lemma delete_again_is_404_witness :
  delete_menu_item no_fault
    (snd (delete_menu_item no_fault Sample.db Sample.as_anna 3)) Sample.as_anna 3
  = (Reply 404 (error_ "Item not found or no rights"),
     snd (delete_menu_item no_fault Sample.db Sample.as_anna 3)).
Proof.
  exact (delete_again_is_404 no_fault Sample.db Sample.anna_user 3
           eq_refl eq_refl).
Defined.

(** ** Price updates, in general *)

Lemma last_price_snoc (updates : list update.t) (u : update.t) (id : Z) :
  Spec.last_price (updates ++ [u]) id
  = if update.id_menu_item u =? id then Some (update.price u)
    else Spec.last_price updates id.
Proof. unfold Spec.last_price. rewrite fold_left_app. reflexivity. Qed.

Lemma applied_updates (businessId : Z) (updates : list update.t) (db : Db.t) :
  let db' := fold_left
               (fun db u => Client.update_price db (update.id_menu_item u)
                                                businessId (update.price u))
               updates db in
  Db.menu_items db'
  = map (fun mi =>
           if menu_items.business_id mi =? businessId
           then match Spec.last_price updates (menu_items.id_menu_item mi) with
                | Some p => Client.set_price p mi
                | None => mi
                end
           else mi)
        (Db.menu_items db)
  /\ Db.sales db' = Db.sales db
  /\ Db.products db' = Db.products db
  /\ Db.business_info db' = Db.business_info db.
Proof.
  induction updates as [|u updates IH] using rev_ind; cbv zeta.
  - simpl. split; [|repeat split].
    rewrite <- (map_id (Db.menu_items db)) at 1. apply map_ext.
    intros mi. destruct (menu_items.business_id mi =? businessId); reflexivity.
  - rewrite fold_left_app. cbn [fold_left].
    cbv zeta in IH. destruct IH as (Hmi & Hs & Hp & Hb).
    set (before := fold_left _ updates db) in *.
    unfold Client.update_price.
    cbn [Db.menu_items Db.sales Db.products Db.business_info].
    split; [| split; [exact Hs | split; [exact Hp | exact Hb]]].
    rewrite Hmi, map_map. apply map_ext. intros mi.
    rewrite last_price_snoc. unfold Client.matches.
    destruct (Z.eqb_spec (menu_items.business_id mi) businessId) as [Eb|Nb].
    + destruct (Spec.last_price updates (menu_items.id_menu_item mi)) as [q|];
        cbn [Client.set_price menu_items.id_menu_item menu_items.business_id];
        rewrite (Z.eqb_sym (menu_items.id_menu_item mi)), Eb, Z.eqb_refl, andb_true_r;
        destruct (update.id_menu_item u =? menu_items.id_menu_item mi);
        reflexivity.
    + replace (menu_items.business_id mi =? businessId) with false
        by (symmetry; apply Z.eqb_neq; exact Nb).
      rewrite andb_false_r. reflexivity.
Qed.

(** X7. When every store call goes through, PATCH /api/menu-items
    answers [{ success: true }] and the last update that names a menu
    item of the session's business decides its price: such an item gets
    the price of that update, every other row of [menu_items] stays as it
    was, with its identifier, business, product and creation time, and
    the other tables are not touched. *)
Theorem patch_last_update_wins :
  forall (fault : faults) (db : Db.t) (user : session_user.t)
         (updates : list update.t),
    (forall j, (j < List.length updates)%nat -> fault j = None) ->
    exists db',
      patch_menu_items fault db (Some user) (Some (map Some updates))
      = (Reply 200 success, db')
      /\ Db.menu_items db'
         = map (fun mi =>
                  if menu_items.business_id mi =? session_user.id user
                  then match Spec.last_price updates
                                             (menu_items.id_menu_item mi) with
                       | Some p => Client.set_price p mi
                       | None => mi
                       end
                  else mi)
               (Db.menu_items db)
      /\ Db.sales db' = Db.sales db
      /\ Db.products db' = Db.products db
      /\ Db.business_info db' = Db.business_info db.
Proof.
  intros fault db user updates Hok. unfold patch_menu_items.
  rewrite <- (app_nil_r (map Some updates)).
  rewrite (update_loop_prefix fault (session_user.id user) updates [] 0 db Hok).
  cbn [update_loop]. eexists. split; [reflexivity|].
  apply applied_updates.
Qed.

Lemma patch_last_update_wins_witness :
  exists db',
    patch_menu_items no_fault Sample.db Sample.as_anna
      (Some [ Some {| update.id_menu_item := 5; update.price := 310 |};
              Some {| update.id_menu_item := 7; update.price := 1 |};
              Some {| update.id_menu_item := 5; update.price := 320 |} ])
    = (Reply 200 success, db')
    /\ Db.menu_items db'
       = [Sample.item 5 1 11 320; Sample.item 3 1 10 250; Sample.item 7 2 10 275].
Proof.
  destruct (patch_last_update_wins no_fault Sample.db Sample.anna_user
              [ {| update.id_menu_item := 5; update.price := 310 |};
                {| update.id_menu_item := 7; update.price := 1 |};
                {| update.id_menu_item := 5; update.price := 320 |} ]
              (fun j _ => eq_refl)) as (db' & Hp & Hmi & _).
  exists db'. split; [exact Hp|]. rewrite Hmi. reflexivity.
Defined.

Lemma update_price_no_match (db : Db.t) (menuItemId businessId price : Z) :
  (forall mi, In mi (Db.menu_items db) ->
              Client.matches menuItemId businessId mi = false) ->
  Client.update_price db menuItemId businessId price = db.
Proof.
  intros H. unfold Client.update_price.
  rewrite (map_ext_in _ (fun mi => mi)).
  - rewrite map_id. apply db_eta.
  - intros mi Hin. rewrite (H mi Hin). reflexivity.
Qed.

(** X8. An update that names no menu item of the session's business,
    because no item has the identifier or because the item belongs to
    another business, changes nothing and is no error: when all updates
    of a PATCH are such and the store calls go through, the answer is
    [{ success: true }] and the store is as before. *)
Theorem patch_of_foreign_items_is_silent :
  forall (fault : faults) (db : Db.t) (user : session_user.t)
         (updates : list update.t),
    (forall j, (j < List.length updates)%nat -> fault j = None) ->
    (forall u mi, In u updates -> In mi (Db.menu_items db) ->
                  Client.matches (update.id_menu_item u) (session_user.id user) mi
                  = false) ->
    patch_menu_items fault db (Some user) (Some (map Some updates))
    = (Reply 200 success, db).
Proof.
  intros fault db user updates Hok Hnone. unfold patch_menu_items.
  rewrite <- (app_nil_r (map Some updates)).
  rewrite (update_loop_prefix fault (session_user.id user) updates [] 0 db Hok).
  cbn [update_loop]. f_equal. clear Hok.
  induction updates as [|u updates IH]; [reflexivity|]. cbn [fold_left].
  rewrite update_price_no_match.
  - apply IH. intros u' mi Hu'. apply Hnone. right. exact Hu'.
  - intros mi Hin. apply Hnone; [left; reflexivity | exact Hin].
Qed.

Lemma patch_of_foreign_items_is_silent_witness :
  patch_menu_items no_fault Sample.db Sample.as_anna
    (Some [ Some {| update.id_menu_item := 7; update.price := 1 |};
            Some {| update.id_menu_item := 99; update.price := 2 |} ])
  = (Reply 200 success, Sample.db).
Proof.
  apply (patch_of_foreign_items_is_silent no_fault Sample.db Sample.anna_user
           [ {| update.id_menu_item := 7; update.price := 1 |};
             {| update.id_menu_item := 99; update.price := 2 |} ]
           (fun j _ => eq_refl)).
  intros u mi Hu Hmi. simpl in Hu, Hmi.
  destruct Hu as [<-|[<-|[]]];
    repeat (destruct Hmi as [<-|Hmi]; [reflexivity|]); destruct Hmi.
Defined.

(** X9. A [null] element in the array of a PATCH stops the loop
    without a store call for it: the answer is 500 [Failed updating
    prices], the updates before it stay applied, those after it are not
    looked at. *)
Theorem patch_stops_at_null :
  forall (fault : faults) (db : Db.t) (user : session_user.t)
         (applied : list update.t) (rest : list (option update.t)),
    (forall j, (j < List.length applied)%nat -> fault j = None) ->
    patch_menu_items fault db (Some user)
                     (Some (map Some applied ++ None :: rest)%list)
    = (Reply 500 (error_ "Failed updating prices"),
       fold_left
         (fun db u => Client.update_price db (update.id_menu_item u)
                                          (session_user.id user) (update.price u))
         applied db).
Proof.
  intros fault db user applied rest Hok. unfold patch_menu_items.
  rewrite (update_loop_prefix fault (session_user.id user) applied
             (None :: rest) 0 db Hok).
  reflexivity.
Qed.

Lemma patch_stops_at_null_witness :
  patch_menu_items no_fault Sample.db Sample.as_anna
    (Some [ Some {| update.id_menu_item := 5; update.price := 310 |}; None;
            Some {| update.id_menu_item := 3; update.price := 260 |} ])
  = (Reply 500 (error_ "Failed updating prices"),
     Client.update_price Sample.db 5 1 310).
Proof.
  exact (patch_stops_at_null no_fault Sample.db Sample.anna_user
           [ {| update.id_menu_item := 5; update.price := 310 |} ]
           [ Some {| update.id_menu_item := 3; update.price := 260 |} ]
           (fun j _ => eq_refl)).
Defined.

(** ** What a write leaves alone *)

Lemma update_loop_sales (fault : faults) (businessId : Z)
      (updates : list (option update.t)) :
  forall (call : nat) (db : Db.t),
    Db.sales (snd (update_loop fault call businessId updates db)) = Db.sales db.
Proof.
  induction updates as [|[u|] updates IH]; intros call db; simpl;
    try reflexivity.
  destruct (fault call); [reflexivity|]. rewrite IH. reflexivity.
Qed.

(** X16. No write of a session reaches the menu of another business:
    after PATCH, DELETE or POST on /api/menu-items, whatever the request
    holds and whichever store calls fail, the menu items of the other
    businesses are the same rows in the same order.  PATCH and POST do
    not touch the sales either. *)
Theorem writes_keep_foreign_menu_items :
  forall (fault : faults) (db : Db.t) (user : session_user.t),
    let foreign := fun d =>
                     filter (fun mi => negb (menu_items.business_id mi
                                             =? session_user.id user))
                            (Db.menu_items d) in
    (forall updates,
        foreign (snd (patch_menu_items fault db (Some user) updates)) = foreign db
        /\ Db.sales (snd (patch_menu_items fault db (Some user) updates))
           = Db.sales db)
    /\ (forall id,
           foreign (snd (delete_menu_item fault db (Some user) id)) = foreign db)
    /\ (forall insertId created_at product_id price,
           foreign (snd (post_menu_item insertId created_at fault db (Some user)
                                        product_id price))
           = foreign db
           /\ Db.sales (snd (post_menu_item insertId created_at fault db
                                            (Some user) product_id price))
              = Db.sales db).
Proof.
  intros fault db user foreign. split; [| split].
  - intros updates. split; [apply patch_foreign|].
    unfold patch_menu_items. destruct updates as [updates|]; [|reflexivity].
    apply update_loop_sales.
  - intros id. apply delete_foreign_items.
  - intros insertId created_at pid price. unfold post_menu_item.
    destruct (fault 0%nat); [split; reflexivity|].
    split; [|reflexivity]. unfold foreign. cbn [snd Db.menu_items].
    rewrite filter_app. cbn [filter menu_items.business_id].
    rewrite Z.eqb_refl. cbn [negb]. apply app_nil_r.
Qed.

(** ** Reading the menu *)

Lemma traverse_none {A B : Type} (f : A -> option B) (xs : list A) :
  Js.traverse f xs = None <-> exists x, In x xs /\ f x = None.
Proof.
  induction xs as [|x xs IH]; simpl.
  - split; [discriminate | intros (x & [] & _)].
  - destruct (f x) as [y|] eqn:E.
    + destruct (Js.traverse f xs) as [ys|]; simpl.
      * split; [discriminate|]. intros (x' & [<-|Hin] & Hx').
        -- congruence.
        -- destruct IH as [_ IH]. discriminate IH. exists x'. auto.
      * split; [|reflexivity]. intros _.
        destruct IH as [IH _]. destruct (IH eq_refl) as (x' & Hin & Hx').
        exists x'. auto.
    + split; [|reflexivity]. intros _. exists x. auto.
Qed.

Lemma shape_none (r : joined.row) :
  shapeMenuItem r = None <-> Client.has_categories r = false.
Proof.
  unfold shapeMenuItem, Client.has_categories.
  destruct (joined.products r) as [p|]; [|tauto].
  destruct (products.categories p); split; intros H; try discriminate; reflexivity.
Qed.

(** X18. GET /api/menu-items has no [try]: when its store call goes
    through, the request ends without any response exactly when some
    menu item of the session's business has no product row or a product
    without category; otherwise it answers 200. *)
Theorem menu_items_unanswered_iff :
  forall (fault : faults) (db : Db.t) (user : session_user.t),
    fault 0%nat = None ->
    (get_menu_items fault db (Some user) = Unhandled <->
     exists mi, In mi (Db.menu_items db)
                /\ menu_items.business_id mi = session_user.id user
                /\ Client.has_categories (Client.embed db mi) = false)
    /\ (get_menu_items fault db (Some user) <> Unhandled ->
        exists views,
          get_menu_items fault db (Some user) = Reply 200 (menu_item_views views)).
Proof.
  intros fault db user Hf. unfold get_menu_items. rewrite Hf.
  destruct (Js.traverse shapeMenuItem
              (Client.menu_items_of db (session_user.id user))) as [views|] eqn:E.
  - split.
    + split; [discriminate|]. intros (mi & Hin & Hb & Hc). exfalso.
      assert (Hn : Js.traverse shapeMenuItem
                     (Client.menu_items_of db (session_user.id user)) = None).
      { apply traverse_none. exists (Client.embed db mi). split.
        - unfold Client.menu_items_of. apply in_map. apply filter_In.
          split; [exact Hin | apply Z.eqb_eq; exact Hb].
        - apply shape_none. exact Hc. }
      congruence.
    + intros _. exists views. reflexivity.
  - split.
    + split; [|reflexivity]. intros _.
      apply traverse_none in E. destruct E as (r & Hr & Hnone).
      destruct (menu_items_of_owned _ _ _ Hr) as (mi & Hin & Hb & ->).
      exists mi. split; [exact Hin|]. split; [exact Hb|].
      apply shape_none. exact Hnone.
    + intros H. contradiction H. reflexivity.
Qed.

Lemma traverse_total {A B : Type} (f : A -> option B) (xs : list A) :
  (forall x, In x xs -> f x <> None) -> Js.traverse f xs <> None.
Proof.
  intros H Hn. apply traverse_none in Hn. destruct Hn as (x & Hx & Hfx).
  exact (H x Hx Hfx).
Qed.

Lemma inner_has_categories (db : Db.t) (businessId : Z) (r : joined.row) :
  In r (Client.menu_items_inner db businessId) -> Client.has_categories r = true.
Proof.
  unfold Client.menu_items_inner. intros H. apply filter_In in H.
  destruct H as [_ H]. apply andb_true_iff in H. tauto.
Qed.

(** X17. The [catch] of the four reading handlers is never reached:
    their queries join the product and its category with [!inner], so
    no callback throws, and none of them ever answers 500
    [Server error]. *)
Theorem server_error_is_never_answered :
  forall (localeCompare collate : string -> string -> Z)
         (nativeText : string -> string) (now_year : Z)
         (fault : faults) (db : Db.t) (sess : session),
    get_sales fault db sess <> Reply 500 (error_ "Server error")
    /\ get_sales_last_year now_year fault db sess
       <> Reply 500 (error_ "Server error")
    /\ get_menu_counts localeCompare nativeText fault db sess
       <> Reply 500 (error_ "Server error")
    /\ get_items_not_on_menu collate fault db sess
       <> Reply 500 (error_ "Server error").
Proof.
  intros lc collate nt now fault db sess.
  split; [| split; [| split]].
  - unfold get_sales. destruct sess as [user|]; [|discriminate].
    destruct (fault 0%nat); [discriminate|].
    destruct (Js.traverse salesStat _) eqn:E; [discriminate|].
    exfalso. revert E. apply traverse_total. intros r Hr.
    destruct (has_categories_inv _ (inner_has_categories _ _ _ Hr))
      as (prod & cat & Hp & Hc).
    unfold salesStat. rewrite Hp, Hc. discriminate.
  - unfold get_sales_last_year. destruct sess as [user|]; [|discriminate].
    destruct (fault 0%nat); [discriminate|].
    destruct (Js.traverse (lastYearStat _ _) _) eqn:E; [discriminate|].
    exfalso. revert E. apply traverse_total. intros r Hr.
    destruct (inner_sub_inv _ _ _ Hr) as (mi & prod & cat & _ & _ & _ & Hp & Hc & _).
    unfold lastYearStat. rewrite Hp, Hc. discriminate.
  - unfold get_menu_counts. destruct sess as [user|]; [|discriminate].
    destruct (fault 0%nat); [discriminate|].
    rewrite countByCategory_tally.
    destruct (Js.traverse category_of _) eqn:E; [discriminate|].
    exfalso. revert E. apply traverse_total. intros r Hr.
    destruct (has_categories_inv _ (inner_has_categories _ _ _ Hr))
      as (prod & cat & Hp & Hc).
    unfold category_of. rewrite Hp, Hc. discriminate.
  - unfold get_items_not_on_menu. destruct sess as [user|]; [|discriminate].
    destruct (fault 0%nat); [discriminate|].
    destruct (fault 1%nat); [discriminate|].
    unfold products_not_in.
    destruct (Client.parse_in_list _); [|discriminate].
    destruct (Js.traverse flattenProduct _) eqn:E; [discriminate|].
    exfalso. revert E. apply traverse_total. intros p Hp.
    apply (Permutation_in _ (sort_perm _ _)) in Hp.
    apply filter_In in Hp. destruct Hp as [_ Hp].
    unfold flattenProduct. destruct (products.categories p); discriminate.
Qed.

Lemma stats_over_views (rows : list joined.row) :
  forall views,
    Js.traverse shapeMenuItem rows = Some views ->
    exists stats,
      Js.traverse salesStat rows = Some stats
      /\ map Spec.as_menu_item stats = views
      /\ forallb (fun r => Client.has_products r && Client.has_categories r) rows
         = true.
Proof.
  induction rows as [|r rows IH]; intros views; simpl.
  - intros H. injection H as <-. exists []. repeat split.
  - unfold shapeMenuItem at 1, salesStat at 1,
      Client.has_products, Client.has_categories.
    destruct (joined.products r) as [prod|]; [|discriminate].
    destruct (products.categories prod) as [cat|]; [|discriminate].
    destruct (Js.traverse shapeMenuItem rows) as [views'|]; [|discriminate].
    simpl. intros H. injection H as <-.
    destruct (IH views' eq_refl) as (stats & Hs & Hm & Hall).
    rewrite Hs. eexists. split; [reflexivity|]. simpl.
    split; [rewrite Hm; reflexivity | exact Hall].
Qed.

Lemma filter_forallb {A : Type} (f : A -> bool) (l : list A) :
  forallb f l = true -> filter f l = l.
Proof.
  intros H. apply filter_all. apply forallb_forall. exact H.
Qed.

(** X19. The two listings of a menu agree.  Whenever GET /api/menu-items
    answers 200, GET /api/sales on the same store and session answers 200
    with one statistic per view, in the same order, and each statistic
    carries the identifier, price, creation time, names, category and
    subcategory of its view. *)
Theorem sales_agree_with_menu_items :
  forall (fault : faults) (db : Db.t) (user : session_user.t)
         (views : list MenuItemView.t),
    get_menu_items fault db (Some user) = Reply 200 (menu_item_views views) ->
    exists stats,
      get_sales fault db (Some user) = Reply 200 (sales_stats stats)
      /\ map Spec.as_menu_item stats = views.
Proof.
  intros fault db user views. unfold get_menu_items, get_sales.
  destruct (fault 0%nat) as [message|]; [discriminate|].
  destruct (Js.traverse shapeMenuItem _) as [views'|] eqn:E; [|discriminate].
  intros H. injection H as <-.
  destruct (stats_over_views _ _ E) as (stats & Hs & Hm & Hall).
  unfold Client.menu_items_inner. rewrite (filter_forallb _ _ Hall), Hs.
  exists stats. split; [reflexivity | exact Hm].
Qed.

Lemma sales_agree_with_menu_items_witness :
  exists views stats,
    get_menu_items no_fault Sample.db Sample.as_anna
    = Reply 200 (menu_item_views views)
    /\ get_sales no_fault Sample.db Sample.as_anna = Reply 200 (sales_stats stats)
    /\ map Spec.as_menu_item stats = views.
Proof.
  eexists.
  destruct (sales_agree_with_menu_items no_fault Sample.db Sample.anna_user _
              eq_refl) as (stats & Hs & Hm).
  exists stats. split; [reflexivity|]. split; [exact Hs | exact Hm].
Defined.

Lemma menu_items_unanswered_iff_witness :
  get_menu_items no_fault Demo.dangling Sample.as_anna = Unhandled.
Proof.
  destruct (menu_items_unanswered_iff no_fault Demo.dangling Sample.anna_user
              eq_refl) as [[_ H] _].
  apply H. exists (Sample.item 6 1 99 100).
  split; [simpl; tauto | split; reflexivity].
Defined.

(** ** What a read depends on *)

Lemma menu_items_of_same (db1 db2 : Db.t) (businessId : Z) :
  Db.products db1 = Db.products db2 ->
  Spec.owned db1 businessId = Spec.owned db2 businessId ->
  (forall mi, In mi (Spec.owned db1 businessId) ->
              filter (fun s => sales.menu_item_id s =? menu_items.id_menu_item mi)
                     (Db.sales db1)
              = filter (fun s => sales.menu_item_id s =? menu_items.id_menu_item mi)
                       (Db.sales db2)) ->
  Client.menu_items_of db1 businessId = Client.menu_items_of db2 businessId.
Proof.
  intros Hp Ho Hs. unfold Client.menu_items_of.
  change (filter (fun mi => menu_items.business_id mi =? businessId)
                 (Db.menu_items db1)) with (Spec.owned db1 businessId).
  change (filter (fun mi => menu_items.business_id mi =? businessId)
                 (Db.menu_items db2)) with (Spec.owned db2 businessId).
  rewrite <- Ho. apply map_ext_in. intros mi Hin.
  unfold Client.embed. rewrite Hp, (Hs mi Hin). reflexivity.
Qed.

(** X15. What a business reads does not depend on the rows of the
    others.  Two stores with the same products, the same menu items of
    the session's business and the same sales of these items give the
    same answer to GET /api/menu-items, /api/sales, /api/sales/last-year,
    /api/menu-counts and /api/items-not-on-menu, whatever menu items and
    sales the other businesses have in the one and in the other. *)
Theorem reads_depend_on_own_rows_only :
  forall (localeCompare collate : string -> string -> Z)
         (nativeText : string -> string) (now_year : Z) (fault : faults)
         (db1 db2 : Db.t) (user : session_user.t),
    Db.products db1 = Db.products db2 ->
    Spec.owned db1 (session_user.id user) = Spec.owned db2 (session_user.id user) ->
    (forall mi, In mi (Spec.owned db1 (session_user.id user)) ->
                filter (fun s => sales.menu_item_id s =? menu_items.id_menu_item mi)
                       (Db.sales db1)
                = filter (fun s => sales.menu_item_id s =? menu_items.id_menu_item mi)
                         (Db.sales db2)) ->
    get_menu_items fault db1 (Some user) = get_menu_items fault db2 (Some user)
    /\ get_sales fault db1 (Some user) = get_sales fault db2 (Some user)
    /\ get_sales_last_year now_year fault db1 (Some user)
       = get_sales_last_year now_year fault db2 (Some user)
    /\ get_menu_counts localeCompare nativeText fault db1 (Some user)
       = get_menu_counts localeCompare nativeText fault db2 (Some user)
    /\ get_items_not_on_menu collate fault db1 (Some user)
       = get_items_not_on_menu collate fault db2 (Some user).
Proof.
  intros lc collate nt now fault db1 db2 user Hp Ho Hs.
  pose proof (menu_items_of_same db1 db2 (session_user.id user) Hp Ho Hs) as Hrows.
  unfold get_menu_items, get_sales, get_sales_last_year, get_menu_counts,
    get_items_not_on_menu, Client.menu_items_inner, Client.menu_items_inner_sub,
    products_not_in.
  rewrite Hrows, Hp.
  change (filter (fun mi => menu_items.business_id mi =? session_user.id user)
                 (Db.menu_items db1)) with (Spec.owned db1 (session_user.id user)).
  change (filter (fun mi => menu_items.business_id mi =? session_user.id user)
                 (Db.menu_items db2)) with (Spec.owned db2 (session_user.id user)).
  rewrite Ho. repeat split.
Qed.

Lemma reads_depend_on_own_rows_only_witness :
  get_menu_items no_fault Sample.db Sample.as_anna
  = get_menu_items no_fault Demo.other_menu Sample.as_anna
  /\ get_sales no_fault Sample.db Sample.as_anna
     = get_sales no_fault Demo.other_menu Sample.as_anna
  /\ get_sales_last_year 2026 no_fault Sample.db Sample.as_anna
     = get_sales_last_year 2026 no_fault Demo.other_menu Sample.as_anna
  /\ get_menu_counts Sample.ordinal Sample.nativeText no_fault Sample.db
                     Sample.as_anna
     = get_menu_counts Sample.ordinal Sample.nativeText no_fault Demo.other_menu
                       Sample.as_anna
  /\ get_items_not_on_menu Sample.ordinal no_fault Sample.db Sample.as_anna
     = get_items_not_on_menu Sample.ordinal no_fault Demo.other_menu
                             Sample.as_anna.
Proof.
  apply (reads_depend_on_own_rows_only Sample.ordinal Sample.ordinal
           Sample.nativeText 2026 no_fault Sample.db Demo.other_menu
           Sample.anna_user eq_refl eq_refl).
  intros mi Hin. simpl in Hin. destruct Hin as [<-|[<-|[]]]; reflexivity.
Defined.

(** ** The city of an address *)

Lemma trimStart_clean (s : string) : Spec.starts_clean (Js.trimStart s).
Proof.
  induction s as [|c s IH]; simpl; [exact I|].
  destruct (Js.isWhiteSpace c) eqn:E; [exact IH | exact E].
Qed.

Lemma trimEnd_starts (s : string) :
  Spec.starts_clean s -> Spec.starts_clean (Js.trimEnd s).
Proof.
  destruct s as [|c s]; simpl; [trivial|]. intros H. rewrite H. exact H.
Qed.

Lemma trimEnd_clean (s : string) : Spec.ends_clean (Js.trimEnd s).
Proof.
  induction s as [|c s IH]; simpl; [exact I|].
  destruct (Js.trimEnd s) as [|d t] eqn:E.
  - simpl. rewrite andb_true_r. destruct (Js.isWhiteSpace c) eqn:Ec;
      [exact I | exact Ec].
  - simpl Js.isEmpty. rewrite andb_false_r. exact IH.
Qed.

Lemma contains_trimStart (c : ascii) (s : string) :
  Text.contains c s = false -> Text.contains c (Js.trimStart s) = false.
Proof.
  induction s as [|x s IH]; simpl; [trivial|]. intros H.
  apply orb_false_iff in H. destruct H as [Hx Hs].
  destruct (Js.isWhiteSpace x); [apply IH; exact Hs|].
  simpl. rewrite Hx, Hs. reflexivity.
Qed.

Lemma contains_trimEnd (c : ascii) (s : string) :
  Text.contains c s = false -> Text.contains c (Js.trimEnd s) = false.
Proof.
  induction s as [|x s IH]; simpl; [trivial|]. intros H.
  apply orb_false_iff in H. destruct H as [Hx Hs].
  destruct (Js.isWhiteSpace x && Js.isEmpty (Js.trimEnd s)); [reflexivity|].
  simpl. rewrite Hx, (IH Hs). reflexivity.
Qed.

Lemma split_parts_without (c : ascii) (s : string) :
  forall p, In p (Js.split c s) -> Text.contains c p = false.
Proof.
  induction s as [|x s IH]; simpl; intros p Hp.
  - destruct Hp as [<-|[]]. reflexivity.
  - destruct (Ascii.eqb x c) eqn:E.
    + destruct Hp as [<-|Hp]; [reflexivity | apply IH; exact Hp].
    + destruct (Js.split c s) as [|q qs] eqn:Eq.
      * destruct Hp as [<-|[]]. simpl. rewrite E. reflexivity.
      * destruct Hp as [<-|Hp].
        -- simpl. rewrite E. apply IH. left. reflexivity.
        -- apply IH. right. exact Hp.
Qed.

(** X20. The city that GET /api/business-info derives from an address,
    whatever the address is and also when it is [null], holds no comma
    and neither starts nor ends with a white space character. *)
Theorem city_is_trimmed_and_comma_free :
  forall address : option string,
    Text.contains "," (fst (splitAddress address)) = false
    /\ Spec.starts_clean (fst (splitAddress address))
    /\ Spec.ends_clean (fst (splitAddress address)).
Proof.
  intros address. unfold splitAddress.
  set (a := match address with
            | None | Some EmptyString => EmptyString
            | Some a => a
            end).
  cbv zeta. cbn [fst].
  destruct (1 <? Z.of_nat (List.length (map Js.trim (Js.split "," a)))) eqn:E;
    [| repeat split].
  assert (Hin : In (nth (List.length (map Js.trim (Js.split "," a)) - 1)
                        (map Js.trim (Js.split "," a)) EmptyString)
                   (map Js.trim (Js.split "," a))).
  { apply nth_In. apply Z.ltb_lt in E. lia. }
  apply in_map_iff in Hin. destruct Hin as (p & <- & Hp).
  unfold Js.trim. split; [| split].
  - apply contains_trimEnd, contains_trimStart.
    apply (split_parts_without _ _ _ Hp).
  - apply trimEnd_starts, trimStart_clean.
  - apply trimEnd_clean.
Qed.

(** X21. GET /api/business-info never answers 404: [.single()] turns
    "no row" into an error, so a session whose business has no row, or
    more than one, gets 500 [Database error]. *)
Theorem business_info_is_never_404 :
  forall (fault : faults) (db : Db.t) (sess : session),
    (forall b, get_business_info fault db sess <> Reply 404 b)
    /\ (forall user,
           sess = Some user ->
           (forall row,
               filter (fun b => business_info.id b =? session_user.id user)
                      (Db.business_info db) <> [row]) ->
           get_business_info fault db sess = Reply 500 (error_ "Database error")).
Proof.
  intros fault db sess. split.
  - intros b. unfold get_business_info.
    destruct sess as [user|]; [|discriminate].
    destruct (fault 0%nat); [discriminate|].
    destruct (filter _ (Db.business_info db)) as [|r [|r' rs]]; simpl;
      try discriminate.
  - intros user -> Hrows. unfold get_business_info.
    destruct (fault 0%nat); [reflexivity|].
    destruct (filter _ (Db.business_info db)) as [|r [|r' rs]]; simpl;
      try reflexivity.
    exfalso. exact (Hrows r eq_refl).
Qed.

Lemma business_info_is_never_404_witness :
  get_business_info no_fault Sample.db Sample.as_newcomer
  = Reply 500 (error_ "Database error").
Proof.
  destruct (business_info_is_never_404 no_fault Sample.db Sample.as_newcomer)
    as [_ H].
  apply (H Sample.newcomer eq_refl). intros row. discriminate.
Defined.

(** ** Counts per category add up *)

Lemma put_increment (nativeText : string -> string) (c : string) (o : Obj.t) :
  Obj.inherited c = false ->
  Forall Spec.counted_once o ->
  Forall Spec.counted_once
         (Obj.put o c (Obj.orZeroPlusOne nativeText (Obj.get o c)))
  /\ Spec.total (map toCategoryCount
                     (Obj.put o c (Obj.orZeroPlusOne nativeText (Obj.get o c))))
     = Spec.total (map toCategoryCount o) + 1.
Proof.
  intros Hord. unfold Obj.inherited in Hord. apply orb_false_iff in Hord.
  destruct Hord as [Hp Hm].
  induction o as [|[k w] o IH]; intros Hall.
  - unfold Obj.get. cbn [Obj.own]. rewrite Hp, Hm. simpl. split.
    + constructor; [|constructor]. exists 1. split; [reflexivity | lia].
    + reflexivity.
  - inversion Hall as [|? ? (n & Hw & Hn) Hall']; subst. simpl in Hw. subst w.
    rewrite get_own. cbn [Obj.own Obj.put].
    destruct (String.eqb k c) eqn:E.
    + cbn [Obj.orZeroPlusOne]. split.
      * constructor; [|exact Hall']. exists (n + 1). split; [reflexivity | lia].
      * unfold Spec.total. simpl. lia.
    + rewrite <- get_own. destruct (IH Hall') as [IH1 IH2]. split.
      * constructor; [|exact IH1]. exists n. split; [reflexivity | exact Hn].
      * unfold Spec.total in *. simpl. simpl in IH2. rewrite IH2. lia.
Qed.

Lemma tally_adds_up (nativeText : string -> string) (cats : list string) :
  forall o,
    (forall c, In c cats -> Obj.inherited c = false) ->
    Forall Spec.counted_once o ->
    Forall Spec.counted_once (fold_left (Obj.increment nativeText) cats o)
    /\ Spec.total (map toCategoryCount
                       (fold_left (Obj.increment nativeText) cats o))
       = Spec.total (map toCategoryCount o) + Z.of_nat (List.length cats).
Proof.
  induction cats as [|c cats IH]; intros o Hord Hall.
  - simpl. split; [exact Hall | lia].
  - cbn [fold_left].
    assert (Hc : Obj.inherited c = false) by (apply Hord; left; reflexivity).
    assert (Hset : Obj.increment nativeText o c
                   = Obj.put o c (Obj.orZeroPlusOne nativeText (Obj.get o c))).
    { unfold Obj.increment, Obj.set. unfold Obj.inherited in Hc.
      apply orb_false_iff in Hc. destruct Hc as [Hp _]. rewrite Hp. reflexivity. }
    rewrite Hset.
    destruct (put_increment nativeText c o Hc Hall) as [H1 H2].
    destruct (IH _ (fun c' H => Hord c' (or_intror H)) H1) as [H3 H4].
    split; [exact H3|]. rewrite H4, H2. cbn [List.length]. lia.
Qed.

Lemma total_perm (l l' : list CategoryCount.t) :
  Permutation l l' -> Spec.total l = Spec.total l'.
Proof.
  unfold Spec.total.
  induction 1 as [|x l l' Hp IH|x y l|l l' l'' H1 IH1 H2 IH2]; simpl.
  - reflexivity.
  - rewrite IH. reflexivity.
  - destruct (CategoryCount.count_on_menu x), (CategoryCount.count_on_menu y); lia.
  - congruence.
Qed.

Lemma traverse_length {A B : Type} (f : A -> option B) (xs : list A) :
  forall ys, Js.traverse f xs = Some ys -> List.length ys = List.length xs.
Proof.
  induction xs as [|x xs IH]; simpl; intros ys H.
  - injection H as <-. reflexivity.
  - destruct (f x); [|discriminate].
    destruct (Js.traverse f xs) as [ys'|]; [|discriminate].
    simpl in H. injection H as <-. simpl. rewrite (IH ys' eq_refl). reflexivity.
Qed.

Lemma traverse_in {A B : Type} (f : A -> option B) (xs : list A) :
  forall ys y, Js.traverse f xs = Some ys -> In y ys ->
               exists x, In x xs /\ f x = Some y.
Proof.
  induction xs as [|x xs IH]; simpl; intros ys y H Hy.
  - injection H as <-. destruct Hy.
  - destruct (f x) as [y0|] eqn:E; [|discriminate].
    destruct (Js.traverse f xs) as [ys'|]; [|discriminate].
    simpl in H. injection H as <-. destruct Hy as [<-|Hy].
    + exists x. auto.
    + destruct (IH ys' y eq_refl Hy) as (x' & Hx' & Hfx'). exists x'. auto.
Qed.

(** X22. The counts of an answer of GET /api/menu-counts are numbers
    from 1 up and add up to the number of rows of the query, the menu
    items of the session's business that have a product with a category,
    when no category is named like a member of [Object.prototype]. *)
Theorem menu_counts_add_up :
  forall (localeCompare : string -> string -> Z) (nativeText : string -> string)
         (fault : faults) (db : Db.t) (user : session_user.t)
         (results : list CategoryCount.t),
    (forall r c, In r (Client.menu_items_inner db (session_user.id user)) ->
                 category_of r = Some c -> Obj.inherited c = false) ->
    get_menu_counts localeCompare nativeText fault db (Some user)
    = Reply 200 (category_counts results) ->
    Spec.total results
    = Z.of_nat (List.length (Client.menu_items_inner db (session_user.id user)))
    /\ Forall (fun r => exists n, CategoryCount.count_on_menu r = Obj.Num n
                                  /\ 1 <= n)
              results.
Proof.
  intros lc nt fault db user results Hord. unfold get_menu_counts.
  destruct (fault 0%nat); [discriminate|].
  rewrite countByCategory_tally.
  destruct (Js.traverse category_of _) as [cats|] eqn:E; [|discriminate].
  simpl. intros H. injection H as <-.
  destruct (tally_adds_up nt cats []) as [Hall Hsum].
  { intros c Hc. destruct (traverse_in _ _ _ _ E Hc) as (r & Hr & Hrc).
    exact (Hord r c Hr Hrc). }
  { constructor. }
  split.
  - rewrite (total_perm _ _ (results_perm lc _)), Hsum.
    rewrite (traverse_length _ _ _ E). reflexivity.
  - eapply Permutation_Forall.
    + apply Permutation_sym. apply results_perm.
    + apply Forall_map. revert Hall. apply Forall_impl.
      intros [k w] (n & Hw & Hn). exists n. split; [exact Hw | exact Hn].
Qed.

Lemma menu_counts_add_up_witness :
  Spec.total
    [ {| CategoryCount.category := "Drinks";
         CategoryCount.count_on_menu := Obj.Num 1 |};
      {| CategoryCount.category := "Food";
         CategoryCount.count_on_menu := Obj.Num 1 |} ]
  = Z.of_nat (List.length (Client.menu_items_inner Sample.db 1)).
Proof.
  apply (menu_counts_add_up Sample.ordinal Sample.nativeText no_fault
           Sample.db Sample.anna_user).
  - intros r c Hr Hc. simpl in Hr.
    destruct Hr as [<-|[<-|[]]]; simpl in Hc; injection Hc as <-; reflexivity.
  - reflexivity.
Defined.

(** ** Onboarding, login and the current user *)

(** X1. POST /api/login answers 200 exactly when the store call goes
    through, one business has the email and the password matches its
    hash.  The answer then names that business, the session holds its
    identifier, email and names, and GET /api/user under that session
    answers with them. *)
Theorem login_succeeds_iff :
  forall (compareSync : string -> string -> bool) (fault : faults) (db : Db.t)
         (sess : session) (email password : string),
    (forall id name sess',
        login compareSync fault db sess email password
        = (Reply 200 (logged_in id name), sess') ->
        exists row,
          fault 0%nat = None
          /\ filter (fun b => String.eqb (business_info.email b) email)
                    (Db.business_info db) = [row]
          /\ compareSync password (business_info.password row) = true
          /\ id = business_info.id row
          /\ name = business_info.horeca_name row
          /\ sess' = Some (Spec.session_of row)
          /\ get_user sess' = Answer 200 (current_user (Spec.session_of row)))
    /\ (forall row,
           fault 0%nat = None ->
           filter (fun b => String.eqb (business_info.email b) email)
                  (Db.business_info db) = [row] ->
           compareSync password (business_info.password row) = true ->
           login compareSync fault db sess email password
           = (Reply 200 (logged_in (business_info.id row)
                                   (business_info.horeca_name row)),
              Some (Spec.session_of row))).
Proof.
  intros compareSync fault db sess email password. split.
  - intros id name sess'. unfold login.
    destruct (fault 0%nat); [discriminate|].
    destruct (filter _ (Db.business_info db)) as [|row [|row' rows]]; simpl;
      try discriminate.
    destruct (compareSync password (business_info.password row)) eqn:E; simpl;
      [|discriminate].
    intros H. injection H as <- <- <-. exists row. repeat split. exact E.
  - intros row Hf Hrow Hc. unfold login. rewrite Hf, Hrow. simpl.
    rewrite Hc. reflexivity.
Qed.

Lemma login_succeeds_iff_witness :
  login Sample.compareSync no_fault Sample.db None "bob@bistro.example" "daisy"
  = (Reply 200 (logged_in 2 "Bistro Bob"), Sample.as_bob).
Proof.
  destruct (login_succeeds_iff Sample.compareSync no_fault Sample.db None
              "bob@bistro.example" "daisy") as [_ H].
  exact (H Sample.bob eq_refl eq_refl eq_refl).
Defined.

(** X2. POST /api/complete-onboarding with one of its seven fields
    absent or empty answers 400 [Missing required fields], the same
    body whichever field it is, and the store is not called: its tables
    stay as they were whatever the store would have answered. *)
Theorem onboarding_rejects_missing_field :
  forall (hashSync : string -> string -> string) (salt : string)
         (insertedId : Z) (fault : faults) (db : Db.t) (req : onboarding.body),
    existsb missing (Spec.fields req) = true ->
    complete_onboarding hashSync salt insertedId fault db req
    = (Answer 400 (plain (failure "Missing required fields")), db).
Proof.
  intros hashSync salt insertedId fault db req H.
  unfold complete_onboarding. unfold Spec.fields in H. cbn [existsb] in H.
  rewrite orb_false_r, !orb_assoc in H. rewrite H. reflexivity.
Qed.

Lemma onboarding_rejects_missing_field_witness :
  complete_onboarding Demo.hashSync "salt" 3 no_fault Sample.db
    {| onboarding.manager_first_name := Some "Carla";
       onboarding.manager_last_name := Some "Smets";
       onboarding.horeca_name := Some "Chez Carla";
       onboarding.address := Some "";
       onboarding.phonenumber := Some "0470000003";
       onboarding.email := Some "carla@chez.example";
       onboarding.password := None |}
  = (Answer 400 (plain (failure "Missing required fields")), Sample.db).
Proof.
  apply onboarding_rejects_missing_field. reflexivity.
Defined.

Lemma present_text (field : option string) :
  missing field = false -> field = Some (text field) /\ text field <> EmptyString.
Proof.
  destruct field as [[|c s]|]; simpl; try discriminate.
  intros _. split; [reflexivity | discriminate].
Qed.

(** X3. A business that has onboarded can log in.  With a hasher whose
    [compareSync] accepts a password against the hash [hashSync] made
    of it, an onboarding with all seven fields, an email that no
    business has yet and a store call that goes through answers 200
    with the new identifier; a login with the same email and password
    then answers 200 and establishes the session of the new business. *)
Theorem onboarding_then_login :
  forall (compareSync : string -> string -> bool)
         (hashSync : string -> string -> string),
    (forall password salt, compareSync password (hashSync password salt) = true) ->
    forall (salt : string) (insertedId : Z) (fault : faults) (db : Db.t)
           (req : onboarding.body),
      existsb missing (Spec.fields req) = false ->
      fault 0%nat = None ->
      (forall b, In b (Db.business_info db) ->
                 business_info.email b <> text (onboarding.email req)) ->
      fst (complete_onboarding hashSync salt insertedId fault db req)
      = Answer 200 (onboarded insertedId)
      /\ login compareSync no_fault
               (snd (complete_onboarding hashSync salt insertedId fault db req))
               None (text (onboarding.email req)) (text (onboarding.password req))
         = (Reply 200 (logged_in insertedId (text (onboarding.horeca_name req))),
            Some {| session_user.id := insertedId;
                    session_user.email := text (onboarding.email req);
                    session_user.horeca_name := text (onboarding.horeca_name req);
                    session_user.manager_first_name :=
                      text (onboarding.manager_first_name req);
                    session_user.manager_last_name :=
                      text (onboarding.manager_last_name req) |}).
Proof.
  intros compareSync hashSync Hhash salt insertedId fault db req Hall Hf Hnew.
  unfold complete_onboarding. unfold Spec.fields in Hall. cbn [existsb] in Hall.
  rewrite orb_false_r, !orb_assoc in Hall. rewrite Hall, Hf.
  split; [reflexivity|].
  unfold login. cbn [no_fault snd Db.business_info].
  rewrite filter_app.
  rewrite (filter_none _ (Db.business_info db)).
  2:{ intros b Hb. apply String.eqb_neq. apply Hnew. exact Hb. }
  cbn [filter app business_info.email]. rewrite String.eqb_refl.
  cbn [Client.maybeSingle business_info.password]. rewrite Hhash. reflexivity.
Qed.

Lemma onboarding_then_login_witness :
  login Sample.compareSync no_fault
        (snd (complete_onboarding Demo.hashSync "salt" 3 no_fault Sample.db
                                  Demo.carla))
        None "carla@chez.example" "poppy"
  = (Reply 200 (logged_in 3 "Chez Carla"),
     Some {| session_user.id := 3;
             session_user.email := "carla@chez.example";
             session_user.horeca_name := "Chez Carla";
             session_user.manager_first_name := "Carla";
             session_user.manager_last_name := "Smets" |}).
Proof.
  destruct (onboarding_then_login Sample.compareSync Demo.hashSync
              (fun password salt => String.eqb_refl _)
              "salt" 3 no_fault Sample.db Demo.carla eq_refl eq_refl)
    as [_ H].
  - intros b Hb. simpl in Hb. destruct Hb as [<-|[<-|[]]]; discriminate.
  - exact H.
Defined.

(** ** Sales stamped with a time *)

Lemma compare_longer (a : string) :
  forall (b t : string),
    String.length a = String.length b ->
    String.compare (a ++ t) b
    = match String.compare a b with
      | Eq => match t with EmptyString => Eq | String _ _ => Gt end
      | c => c
      end.
Proof.
  induction a as [|x a IH]; intros [|y b] t Hlen; try discriminate.
  - destruct t; reflexivity.
  - simpl. destruct (Ascii.compare x y); try reflexivity.
    apply IH. simpl in Hlen. lia.
Qed.

Lemma leb_longer_l (a b t : string) :
  String.length a = String.length b -> t <> EmptyString ->
  String.leb (a ++ t) b = String.leb a b && negb (String.leb b a).
Proof.
  intros Hlen Ht. unfold String.leb.
  rewrite (compare_longer a b t Hlen), (String.compare_antisym a b).
  destruct t; [contradiction|].
  destruct (String.compare b a); reflexivity.
Qed.

Lemma leb_longer_r (a b t : string) :
  String.length a = String.length b -> t <> EmptyString ->
  String.leb b (a ++ t) = String.leb b a.
Proof.
  intros Hlen Ht. unfold String.leb.
  rewrite (String.compare_antisym b (a ++ t)), (compare_longer a b t Hlen).
  rewrite (String.compare_antisym a b).
  destruct t; [contradiction|].
  destruct (String.compare b a); reflexivity.
Qed.

(** X23. The filter of the sales handlers compares texts.  A sale whose
    [sold_at] is the text of a valid day followed by anything more, a
    time for instance, passes the filter of a year exactly when the day
    is in that year and is not its 31st of December: on the last day of
    the year such a sale is not counted. *)
Theorem stamped_sale_misses_last_day :
  forall (y : Z) (d : Ref.date) (stamp : string) (menuItem : Z),
    0 <= y <= 9999 -> Ref.valid d -> stamp <> EmptyString ->
    in_window (Ref.iso {| Ref.year := y; Ref.month := 1; Ref.day := 1 |})
              (Ref.iso {| Ref.year := y; Ref.month := 12; Ref.day := 31 |})
              {| sales.menu_item_id := menuItem;
                 sales.sold_at := Ref.iso d ++ stamp |}
    = Ref.in_year_window y d
      && negb ((Ref.month d =? 12) && (Ref.day d =? 31)).
Proof.
  intros y d stamp menuItem Hy Hd Hstamp.
  unfold in_window, Js.str_ge, Js.str_le. cbn [sales.sold_at].
  rewrite leb_longer_r, leb_longer_l by (try reflexivity; exact Hstamp).
  rewrite !leb_iso by (try exact Hd; unfold Ref.valid; simpl; lia).
  unfold Ref.in_year_window, Ref.date_leb. cbn [Ref.year Ref.month Ref.day].
  destruct Hd as (_ & Hm & Hday).
  repeat match goal with
    | |- context [?a <? ?b] => destruct (Z.ltb_spec a b)
    | |- context [?a =? ?b] => destruct (Z.eqb_spec a b)
    | |- context [?a <=? ?b] => destruct (Z.leb_spec a b)
    end; cbn; try reflexivity; try lia.
Qed.

Lemma stamped_sale_misses_last_day_witness :
  in_window "2025-01-01" "2025-12-31"
            {| sales.menu_item_id := 3; sales.sold_at := "2025-12-31T10:00:00" |}
  = false.
Proof.
  apply (stamped_sale_misses_last_day 2025 (Sample.on 2025 12 31) "T10:00:00" 3).
  - lia.
  - unfold Ref.valid. simpl. lia.
  - discriminate.
Defined.

(** ** A price update, seen from the menu *)

Lemma filter_map_swap {A B : Type} (p : B -> bool) (g : A -> B) (l : list A) :
  filter p (map g l) = map g (filter (fun x => p (g x)) l).
Proof.
  induction l as [|x l IH]; simpl; [reflexivity|].
  destruct (p (g x)); simpl; rewrite IH; reflexivity.
Qed.

Lemma shape_repriced (updates : list update.t) (db : Db.t) (mi : menu_items.row) :
  shapeMenuItem
    (Client.embed db
       match Spec.last_price updates (menu_items.id_menu_item mi) with
       | Some p => Client.set_price p mi
       | None => mi
       end)
  = option_map (Spec.repriced updates) (shapeMenuItem (Client.embed db mi)).
Proof.
  unfold shapeMenuItem, Spec.repriced.
  destruct (Spec.last_price updates (menu_items.id_menu_item mi)) as [p|] eqn:E;
    cbn [Client.embed Client.set_price joined.products joined.id_menu_item
         joined.price joined.created_at menu_items.product_id
         menu_items.id_menu_item menu_items.price menu_items.created_at].
  - destruct (find _ (Db.products db)) as [prod|]; [|reflexivity].
    destruct (products.categories prod); [|reflexivity].
    cbn [option_map MenuItemView.id_menu_item]. rewrite E. reflexivity.
  - destruct (find _ (Db.products db)) as [prod|]; [|reflexivity].
    destruct (products.categories prod); [|reflexivity].
    cbn [option_map MenuItemView.id_menu_item]. rewrite E. reflexivity.
Qed.

(** X10. A price set by PATCH is the price the menu shows.  When every
    store call of a PATCH goes through and GET /api/menu-items answered
    200 before it, GET /api/menu-items answers 200 after it with the same
    views in the same order, each with the price of the last update that
    names it and with its old price when none does. *)
Theorem patched_prices_are_shown :
  forall (fault : faults) (db : Db.t) (user : session_user.t)
         (updates : list update.t) (views : list MenuItemView.t),
    (forall j, (j < List.length updates)%nat -> fault j = None) ->
    get_menu_items no_fault db (Some user) = Reply 200 (menu_item_views views) ->
    get_menu_items no_fault
      (snd (patch_menu_items fault db (Some user) (Some (map Some updates))))
      (Some user)
    = Reply 200 (menu_item_views (map (Spec.repriced updates) views)).
Proof.
  intros fault db user updates views Hok.
  unfold patch_menu_items.
  rewrite <- (app_nil_r (map Some updates)).
  rewrite (update_loop_prefix fault (session_user.id user) updates [] 0 db Hok).
  cbn [update_loop snd].
  destruct (applied_updates (session_user.id user) updates db)
    as (Hmi & Hs & Hp & _).
  set (db' := fold_left _ updates db) in *.
  unfold get_menu_items. cbn [no_fault].
  assert (Hrows : Js.traverse shapeMenuItem
                    (Client.menu_items_of db' (session_user.id user))
                  = option_map (map (Spec.repriced updates))
                      (Js.traverse shapeMenuItem
                         (Client.menu_items_of db (session_user.id user)))).
  { unfold Client.menu_items_of. rewrite Hmi, filter_map_swap.
    rewrite (filter_ext _ (fun mi => menu_items.business_id mi
                                     =? session_user.id user)).
    2:{ intros mi.
        destruct (menu_items.business_id mi =? session_user.id user) eqn:E;
          [|exact E].
        destruct (Spec.last_price updates (menu_items.id_menu_item mi));
          exact E. }
    rewrite !map_map.
    set (owned := filter _ (Db.menu_items db)).
    assert (Hown : forall mi, In mi owned ->
                     (menu_items.business_id mi =? session_user.id user) = true)
      by (intros mi Hin; apply filter_In in Hin; tauto).
    clearbody owned.
    induction owned as [|mi owned IH]; [reflexivity|].
    cbn [map Js.traverse].
    rewrite (Hown mi (or_introl eq_refl)).
    replace (Client.embed db'
               match Spec.last_price updates (menu_items.id_menu_item mi) with
               | Some p => Client.set_price p mi
               | None => mi
               end)
      with (Client.embed db
              match Spec.last_price updates (menu_items.id_menu_item mi) with
              | Some p => Client.set_price p mi
              | None => mi
              end)
      by (unfold Client.embed; rewrite Hp, Hs; reflexivity).
    rewrite shape_repriced, (IH (fun mi' H => Hown mi' (or_intror H))).
    destruct (shapeMenuItem (Client.embed db mi)); [|reflexivity].
    destruct (Js.traverse shapeMenuItem (map (Client.embed db) owned));
      reflexivity. }
  rewrite Hrows.
  destruct (Js.traverse shapeMenuItem
              (Client.menu_items_of db (session_user.id user))) as [vs|];
    [|discriminate].
  intros H. injection H as <-. reflexivity.
Qed.

Lemma patched_prices_are_shown_witness :
  exists views,
    get_menu_items no_fault Sample.db Sample.as_anna
    = Reply 200 (menu_item_views views)
    /\ get_menu_items no_fault
         (snd (patch_menu_items no_fault Sample.db Sample.as_anna
                 (Some [ Some {| update.id_menu_item := 5; update.price := 310 |};
                         Some {| update.id_menu_item := 5; update.price := 320 |} ])))
         Sample.as_anna
       = Reply 200
           (menu_item_views
              (map (Spec.repriced
                      [ {| update.id_menu_item := 5; update.price := 310 |};
                        {| update.id_menu_item := 5; update.price := 320 |} ])
                   views)).
Proof.
  eexists. split; [reflexivity|].
  apply (patched_prices_are_shown no_fault Sample.db Sample.anna_user
           [ {| update.id_menu_item := 5; update.price := 310 |};
             {| update.id_menu_item := 5; update.price := 320 |} ]).
  - intros j _. reflexivity.
  - reflexivity.
Defined.
